(** * Derilinx geocoder: tokenizer and progressive matcher

    A shallow embedding of [derilinx_geocoder_api.py]: the address
    tokenizer [address_handler], the matcher [extract_gps_coordinates]
    and the part of [api_filter] that chains them.

    Python values are modelled as follows.
    - [str] is [string]; the characters are the code points below 128,
      and [str.upper] and [str.split()] are modelled on that range.
    - a [list] of [str] is [list string]; where the program mutates a
      list the caller still holds ([address_list.pop(0)]), the function
      returns the final contents of that list next to its result.
    - exceptions are the constructors of [exn]; a computation that may
      raise returns a [result].
    - a pandas [DataFrame] is its column labels and its rows of cells; a
      cell is a string or missing ([NaN]). *)

From Stdlib Require Import String Ascii List Bool Arith Lia.
Import ListNotations.
Open Scope string_scope.
Open Scope list_scope.

(** ** Exceptions *)

Inductive exn : Type :=
| IndexError
| KeyError
| ValueError.

Inductive result (A : Type) : Type :=
| Ok (a : A)
| Raise (e : exn).

Arguments Ok {A} a.
Arguments Raise {A} e.

Definition bind {A B : Type} (r : result A) (k : A -> result B) : result B :=
  match r with
  | Ok a => k a
  | Raise e => Raise e
  end.

Notation "x <- r ;; k" := (bind r (fun x => k))
  (at level 61, r at next level, right associativity).

Fixpoint mapM {A B : Type} (f : A -> result B) (l : list A) : result (list B) :=
  match l with
  | [] => Ok []
  | a :: l' => b <- f a ;; bs <- mapM f l' ;; Ok (b :: bs)
  end.

(** ** Python [str] operations used by the tokenizer *)

Module PyStr.

Definition comma : ascii := ","%char.
Definition space : ascii := " "%char.
Definition dot : ascii := "."%char.

(** [s.split(sep)] for a one-character separator: every occurrence of
    [sep] ends a segment, so the result always has one segment more
    than there are separators (the empty string gives ['']). *)
Fixpoint split (sep : ascii) (s : string) : list string :=
  match s with
  | EmptyString => [EmptyString]
  | String c s' =>
      if Ascii.eqb c sep then EmptyString :: split sep s'
      else match split sep s' with
           | w :: ws => String c w :: ws
           | [] => [String c EmptyString]
           end
  end.

(** [c.isspace()] on the ASCII range: tab, line feed, vertical tab,
    form feed, carriage return, the four separators 28..31 and the
    space. *)
Definition isspace (c : ascii) : bool :=
  let n := nat_of_ascii c in
  (((9 <=? n) && (n <=? 13)) || ((28 <=? n) && (n <=? 32)))%nat.

(** [s.split()] with no argument: the maximal runs of characters that
    are not white space, in order; no empty string is ever produced. *)
Fixpoint split_ws (s : string) : list string :=
  match s with
  | EmptyString => []
  | String c s' =>
      if isspace c then split_ws s'
      else match s' with
           | EmptyString => [String c EmptyString]
           | String c' _ =>
               if isspace c' then String c EmptyString :: split_ws s'
               else match split_ws s' with
                    | w :: ws => String c w :: ws
                    | [] => [String c EmptyString]
                    end
           end
  end.

(** [s.replace(c, '')] for a one-character [c]. *)
Fixpoint remove_char (c : ascii) (s : string) : string :=
  match s with
  | EmptyString => EmptyString
  | String d s' =>
      if Ascii.eqb d c then remove_char c s' else String d (remove_char c s')
  end.

(** [c in s] for a one-character [c]. *)
Fixpoint contains (c : ascii) (s : string) : bool :=
  match s with
  | EmptyString => false
  | String d s' => Ascii.eqb d c || contains c s'
  end.

Definition upper_char (c : ascii) : ascii :=
  let n := nat_of_ascii c in
  if ((97 <=? n) && (n <=? 122))%nat then ascii_of_nat (n - 32) else c.

(** [s.upper()]. *)
Fixpoint upper (s : string) : string :=
  match s with
  | EmptyString => EmptyString
  | String c s' => String (upper_char c) (upper s')
  end.

End PyStr.

(** ** Python [list] operations used by the tokenizer *)

Module PyList.

(** [l.remove(x)]: drops the first element equal to [x]; raises
    [ValueError] when there is none. *)
Fixpoint remove (x : string) (l : list string) : result (list string) :=
  match l with
  | [] => Raise ValueError
  | y :: l' =>
      if String.eqb y x then Ok l'
      else l'' <- remove x l' ;; Ok (y :: l'')
  end.

End PyList.

(** ** The tokenizer, [address_handler] *)

(** The loop
<<
    for word in _address_separated_list:
        if word == '':
            _address_separated_list.remove(word)
>>
    A Python list iterator is a position [it] into the list as it is
    now: each turn reads the element at [it], if there is one, and moves
    [it] one step on, whatever the body did to the list.  [fuel] bounds
    the number of turns; [remove_empty] gives it the length of the list,
    which no run exceeds (lemma [remove_empty_loop_fuel]). *)
Fixpoint remove_empty_loop (fuel it : nat) (l : list string)
  : result (list string) :=
  match fuel with
  | 0 => Ok l
  | S fuel' =>
      match nth_error l it with
      | None => Ok l
      | Some word =>
          if String.eqb word "" then
            l' <- PyList.remove word l ;; remove_empty_loop fuel' (S it) l'
          else remove_empty_loop fuel' (S it) l
      end
  end.

Definition remove_empty (l : list string) : result (list string) :=
  remove_empty_loop (List.length l) 0 l.

(** One turn of the loop
<<
    for index, word in enumerate(_address_separated_list):
        if word[0] == ' ':
            _address_separated_list[index] = _address_separated_list[index][1:]
        _address_separated_list[index] = _address_separated_list[index].replace('.', '')
>>
    [word[0]] raises [IndexError] on the empty string. *)
Definition clean_word (word : string) : result string :=
  match word with
  | EmptyString => Raise IndexError
  | String c rest =>
      Ok (PyStr.remove_char PyStr.dot
            (if Ascii.eqb c PyStr.space then rest else word))
  end.

(** One turn of the last loop: the tokens a cleaned segment appends to
    [final_address_list]. *)
Definition emit_word (word : string) : list string :=
  if PyStr.contains PyStr.space word
  then map PyStr.upper (PyStr.split_ws word)
  else [PyStr.upper word].

Definition address_handler (full_address : string) : result (list string) :=
  let _address_separated_list := PyStr.split PyStr.comma full_address in
  l1 <- remove_empty _address_separated_list ;;
  l2 <- mapM clean_word l1 ;;
  Ok (flat_map emit_word l2).

(** ** The part of pandas the matcher uses *)

Module Pandas.

(** A cell holds text, or nothing ([NaN], what [read_csv] gives for an
    empty field). *)
Definition Cell : Type := option string.

(** A frame is rectangular: every row has one cell per column label,
    and the labels are distinct, as [read_csv] makes them. *)
Record DataFrame : Type := mkDataFrame {
  columns : list string;
  rows : list (list Cell)
}.

(** [pandas.DataFrame()]: no column, no row. *)
Definition new : DataFrame := mkDataFrame [] [].

(** [df.empty]: true when either axis has length 0. *)
Definition empty (df : DataFrame) : bool :=
  match columns df, rows df with
  | [], _ => true
  | _, [] => true
  | _, _ => false
  end.

(** Position of a label among the column labels. *)
Fixpoint get_loc (label : string) (cols : list string) : option nat :=
  match cols with
  | [] => None
  | c :: cols' =>
      if String.eqb c label then Some 0
      else option_map S (get_loc label cols')
  end.

Definition cell_at (j : nat) (row : list Cell) : Cell := nth j row None.

(** [df[label]]: the column as a series; [KeyError] when [label] is not
    a column. *)
Definition getitem (df : DataFrame) (label : string) : result (list Cell) :=
  match get_loc label (columns df) with
  | None => Raise KeyError
  | Some j => Ok (map (cell_at j) (rows df))
  end.

(** [series == value], element by element; a missing cell equals no
    string. *)
Definition cell_eqb (value : string) (c : Cell) : bool :=
  match c with
  | Some s => String.eqb s value
  | None => false
  end.

Definition series_eq (series : list Cell) (value : string) : list bool :=
  map (cell_eqb value) series.

(** [mask1 & mask2] on two boolean series over the same index. *)
Fixpoint series_and (m1 m2 : list bool) : list bool :=
  match m1, m2 with
  | b1 :: m1', b2 :: m2' => (b1 && b2) :: series_and m1' m2'
  | _, _ => []
  end.

Fixpoint select {A : Type} (mask : list bool) (l : list A) : list A :=
  match mask, l with
  | b :: mask', a :: l' => if b then a :: select mask' l' else select mask' l'
  | _, _ => []
  end.

(** [df.loc[mask]]: the rows where the mask holds, under the same
    columns. *)
Definition loc (df : DataFrame) (mask : list bool) : DataFrame :=
  mkDataFrame (columns df) (select mask (rows df)).

(** [df[labels]] for a list of labels: the frame restricted to these
    columns, in the order given; [KeyError] when one is missing. *)
Definition getitem_list (df : DataFrame) (labels : list string)
  : result DataFrame :=
  js <- mapM (fun label => match get_loc label (columns df) with
                           | Some j => Ok j
                           | None => Raise KeyError
                           end) labels ;;
  Ok (mkDataFrame labels (map (fun row => map (fun j => cell_at j row) js)
                            (rows df))).

End Pandas.

Import Pandas.

(** ** The matcher, [extract_gps_coordinates] *)

Section Matcher.

(** The two module-level frames, read once from the gazetteer files. *)
Variables TOWNLANDS_DF COUNTIES_DF : DataFrame.

(** [TOWNLANDS_DF.loc[(TOWNLANDS_DF['County'] == county) &
                      (TOWNLANDS_DF['English_Name'] == name)]] *)
Definition townlands_lookup (county name : string) : result DataFrame :=
  c <- getitem TOWNLANDS_DF "County" ;;
  n <- getitem TOWNLANDS_DF "English_Name" ;;
  Ok (loc TOWNLANDS_DF (series_and (series_eq c county) (series_eq n name))).

(** [COUNTIES_DF.loc[COUNTIES_DF['County'] == county]] *)
Definition counties_lookup (county : string) : result DataFrame :=
  c <- getitem COUNTIES_DF "County" ;;
  Ok (loc COUNTIES_DF (series_eq c county)).

(** The [while] loop.  [address_list] is the list the caller passed:
    the loop pops its first element at the end of every turn, so the
    recursion is on the list itself.  The pair returned is the list as
    the loop leaves it and the frame in [_matched_df], or the exception
    that stopped the loop. *)
Fixpoint while_loop (_matched_df : DataFrame) (address_list : list string)
  : list string * result DataFrame :=
  match address_list with
  | [] => (address_list, Ok _matched_df)
  | first :: rest =>
      if empty _matched_df then
        match townlands_lookup (last address_list first) first with
        | Raise e => (address_list, Raise e)
        | Ok townlands_match =>
            match (if Nat.eqb (List.length address_list) 1
                   then counties_lookup first
                   else Ok townlands_match) with
            | Raise e => (address_list, Raise e)
            | Ok _matched_df' => while_loop _matched_df' rest
            end
        end
      else (address_list, Ok _matched_df)
  end.

Definition out_columns : list string := ["County"; "English_Name"; "Y"; "X"].

Definition extract_gps_coordinates (address_list : list string)
  : list string * result DataFrame :=
  let '(address_list', r) := while_loop new address_list in
  (address_list', _matched_df <- r ;; getitem_list _matched_df out_columns).

(** [api_filter] from the address to [data]: the tokenizer, then the
    matcher on the list the tokenizer built. *)
Definition api_filter (address : string) : result DataFrame :=
  address_words <- address_handler address ;;
  snd (extract_gps_coordinates address_words).

(** Two calls in a row on one list object, as in
<<
  r1 = extract_gps_coordinates(address_list)
  r2 = extract_gps_coordinates(address_list)
>>
    The second call receives the list as the first one left it. *)
Definition call_twice (address_list : list string)
  : result DataFrame * result DataFrame :=
  let '(address_list1, r1) := extract_gps_coordinates address_list in
  let '(_, r2) := extract_gps_coordinates address_list1 in
  (r1, r2).

(** Two calls in a row, each on a list of its own with the same
    tokens, as in
<<
  r1 = extract_gps_coordinates(list(tokens))
  r2 = extract_gps_coordinates(list(tokens))
>> *)
Definition call_twice_copies (tokens : list string)
  : result DataFrame * result DataFrame :=
  let '(_, r1) := extract_gps_coordinates tokens in
  let '(_, r2) := extract_gps_coordinates tokens in
  (r1, r2).

End Matcher.

(** ** Two small gazetteers

    A few rows in the layout of the gazetteer files, used to run the
    definitions. *)

Definition demo_columns : list string :=
  ["X"; "Y"; "OBJECTID"; "County"; "English_Name"].

Definition demo_townlands : DataFrame :=
  mkDataFrame demo_columns
    [ [Some "-6.868629101436554"; Some "52.82089152866102"; Some "1";
       Some "CARLOW"; Some "JOHNSTOWN"];
      [Some "-6.9261"; Some "52.8408"; Some "2";
       Some "CARLOW"; Some "CARLOW"];
      [Some "-6.7012"; Some "52.7100"; Some "3";
       Some "CARLOW"; Some "JOHNSTOWN"];
      [Some "-7.2301"; Some "52.6477"; Some "4";
       Some "KILKENNY"; Some "JOHNSTOWN"];
      [Some "-6.8702"; Some "52.8300"; Some "5";
       Some "CARLOW"; Some "BENNEKERRY"];
      [Some "-8.4000"; Some "51.9000"; Some "6";
       Some "CORK"; None] ].

Definition demo_counties : DataFrame :=
  mkDataFrame demo_columns
    [ [Some "-6.8100"; Some "52.6900"; Some "1"; Some "CARLOW"; Some "CARLOW"];
      [Some "-7.2500"; Some "52.5800"; Some "2"; Some "KILKENNY";
       Some "KILKENNY"];
      [Some "-8.7500"; Some "51.9700"; Some "3"; Some "CORK"; Some "CORK"] ].

(** A counties file with the columns [County], [Y], [X] only. *)
Definition narrow_counties : DataFrame :=
  mkDataFrame ["County"; "Y"; "X"]
    [ [Some "CARLOW"; Some "52.6900"; Some "-6.8100"] ].

(** ** Vocabulary of the statements *)

(** The frame has a column of that label. *)
Definition has_column (df : DataFrame) (label : string) : bool :=
  match get_loc label (columns df) with
  | Some _ => true
  | None => false
  end.

Definition has_columns (df : DataFrame) (labels : list string) : bool :=
  forallb (has_column df) labels.

(** The cell of a row under a column label. *)
Definition field (df : DataFrame) (label : string) (row : list Cell) : Cell :=
  match get_loc label (columns df) with
  | Some j => cell_at j row
  | None => None
  end.

(** The record a row of a table gives: its County, English_Name, Y and X
    cells. *)
Definition record (df : DataFrame) (row : list Cell) : list Cell :=
  map (fun label => field df label row) out_columns.

Definition records_frame (df : DataFrame) (rs : list (list Cell)) : DataFrame :=
  mkDataFrame out_columns (map (record df) rs).

(** The rows of the places table with that county and that name. *)
Definition place_rows (places : DataFrame) (county name : string)
  : list (list Cell) :=
  filter (fun row => cell_eqb county (field places "County" row)
                     && cell_eqb name (field places "English_Name" row))
         (rows places).

(** The rows of the counties table with that county. *)
Definition county_rows (counties : DataFrame) (county : string)
  : list (list Cell) :=
  filter (fun row => cell_eqb county (field counties "County" row))
         (rows counties).

(** The number of turns of the search on [ts] with county anchor
    [county]: one per token up to and including the first whose place
    rows are not empty, or one per token when there is none among the
    tokens before the last. *)
Fixpoint turns (places : DataFrame) (county : string) (ts : list string) : nat :=
  match ts with
  | [] => 0
  | t :: rest =>
      match rest with
      | [] => 1
      | _ :: _ =>
          match place_rows places county t with
          | [] => S (turns places county rest)
          | _ :: _ => 1
          end
      end
  end.

(** All rows of [df] are rows of [table], cut down to the four output
    columns. *)
Definition drawn_from (table df : DataFrame) : Prop :=
  exists rs, incl rs (rows table) /\ df = records_frame table rs.

(** No row of the table has the empty string as its County. *)
Definition no_blank_county (df : DataFrame) : bool :=
  forallb (fun row => negb (cell_eqb "" (field df "County" row))) (rows df).

Definition is_empty_string (w : string) : bool := String.eqb w "".

(** Two neighbouring segments are both empty. *)
Fixpoint adjacent_empty (l : list string) : bool :=
  match l with
  | [] => false
  | w :: l' =>
      (is_empty_string w && match l' with
                            | w' :: _ => is_empty_string w'
                            | [] => false
                            end)
      || adjacent_empty l'
  end.

(** What [clean_word] makes of a segment that is not empty. *)
Definition clean (word : string) : string :=
  match word with
  | EmptyString => EmptyString
  | String c rest =>
      PyStr.remove_char PyStr.dot
        (if Ascii.eqb c PyStr.space then rest else word)
  end.

(** The tokenizer as a pure pipeline over the segments that are not
    empty. *)
Definition tokens_of_segments (segments : list string) : list string :=
  flat_map emit_word
    (map clean (filter (fun w => negb (is_empty_string w)) segments)).

Fixpoint all_chars (p : ascii -> bool) (s : string) : bool :=
  match s with
  | EmptyString => true
  | String c s' => p c && all_chars p s'
  end.

(** Comma, space or period. *)
Definition is_delimiter (c : ascii) : bool :=
  Ascii.eqb c PyStr.comma || Ascii.eqb c PyStr.space || Ascii.eqb c PyStr.dot.

(** Space or period. *)
Definition is_blank (c : ascii) : bool :=
  Ascii.eqb c PyStr.space || Ascii.eqb c PyStr.dot.

Definition is_space (c : ascii) : bool := Ascii.eqb c PyStr.space.

(** No comma, space or period in the string. *)
Definition no_delimiter (s : string) : bool :=
  all_chars (fun c => negb (is_delimiter c)) s.

(** No row of the table has [county] as its County. *)
Definition unknown_county (df : DataFrame) (county : string) : bool :=
  forallb (fun row => negb (cell_eqb county (field df "County" row)))
          (rows df).

(** ** The records handed to [jsonify] *)

(** [data.to_dict(orient='records')]: one dictionary per row, from the
    column label to the cell of the row, in the order of the columns. *)
Definition to_dict_records (df : DataFrame) : list (list (string * Cell)) :=
  map (fun row => combine (columns df) row) (rows df).

(** * Properties *)

(** ** Frames *)

Lemma select_map {A : Type} (p : A -> bool) (l : list A) :
  select (map p l) l = filter p l.
Proof.
  induction l as [|a l IH]; cbn; [reflexivity|].
  rewrite IH. reflexivity.
Qed.

Lemma series_and_map {A : Type} (p q : A -> bool) (l : list A) :
  series_and (map p l) (map q l) = map (fun a => p a && q a) l.
Proof.
  induction l as [|a l IH]; cbn; [reflexivity|].
  rewrite IH. reflexivity.
Qed.

Lemma select_incl {A : Type} (mask : list bool) (l : list A) :
  incl (select mask l) l.
Proof.
  revert mask. induction l as [|a l IH]; intros [|b mask]; cbn;
    try (intros x []).
  destruct b.
  - intros x [->|Hx]; [now left | right; now apply (IH mask)].
  - intros x Hx. right. now apply (IH mask).
Qed.

Lemma has_column_get_loc df label :
  has_column df label = true -> exists j, get_loc label (columns df) = Some j.
Proof.
  unfold has_column. destruct (get_loc label (columns df)) as [j|];
    [eauto | discriminate].
Qed.

Lemma has_column_columns df label :
  has_column df label = true -> columns df <> [].
Proof.
  intros H E. unfold has_column in H. rewrite E in H. discriminate.
Qed.

Lemma has_columns_in df labels label :
  has_columns df labels = true -> In label labels -> has_column df label = true.
Proof.
  unfold has_columns. rewrite forallb_forall. auto.
Qed.

Lemma empty_mk cols rs :
  cols <> [] -> empty (mkDataFrame cols rs) = match rs with [] => true | _ => false end.
Proof.
  unfold empty; cbn. destruct cols; [congruence|]. destruct rs; reflexivity.
Qed.

Lemma getitem_series df label :
  has_column df label = true ->
  getitem df label = Ok (map (field df label) (rows df)).
Proof.
  intros H. destruct (has_column_get_loc _ _ H) as [j Hj].
  unfold getitem, field. rewrite Hj. reflexivity.
Qed.

(** [df[labels]] keeps every row and cuts it down to [labels]. *)
Lemma getitem_list_inv df labels df' :
  getitem_list df labels = Ok df' ->
  has_columns df labels = true /\
  df' = mkDataFrame labels
          (map (fun row => map (fun label => field df label row) labels)
               (rows df)).
Proof.
  unfold getitem_list, has_columns, field.
  set (f := fun label => match get_loc label (columns df) with
                         | Some j => Ok j
                         | None => Raise KeyError
                         end).
  assert (G : forall ls js, mapM f ls = Ok js ->
            forallb (has_column df) ls = true /\
            forall row : list Cell,
              map (fun j => cell_at j row) js
              = map (fun label => match get_loc label (columns df) with
                                  | Some j => cell_at j row
                                  | None => None
                                  end) ls).
  { induction ls as [|l ls IH]; cbn; intros js Hjs.
    - injection Hjs as <-. split; reflexivity.
    - unfold f at 1 in Hjs. unfold has_column at 1.
      destruct (get_loc l (columns df)) as [j|]; cbn in Hjs; [|discriminate].
      destruct (mapM f ls) as [js'|e]; cbn in Hjs; [|discriminate].
      injection Hjs as <-. destruct (IH js' eq_refl) as [H1 H2].
      split; [exact H1|]. intros row; cbn. now rewrite H2. }
  destruct (mapM f labels) as [js|e] eqn:E; cbn; [|discriminate].
  intros H. injection H as <-. destruct (G _ _ E) as [H1 H2].
  split; [exact H1|]. f_equal. apply map_ext. exact H2.
Qed.

Lemma getitem_list_ok df labels :
  has_columns df labels = true ->
  getitem_list df labels
  = Ok (mkDataFrame labels
          (map (fun row => map (fun label => field df label row) labels)
               (rows df))).
Proof.
  intros H.
  destruct (getitem_list df labels) as [df'|e] eqn:E.
  - apply getitem_list_inv in E. destruct E as [_ ->]. reflexivity.
  - exfalso. revert E. unfold getitem_list.
    set (f := fun label => _).
    assert (G : forall ls, forallb (has_column df) ls = true ->
                           exists js, mapM f ls = Ok js).
    { induction ls as [|l ls IH]; cbn; intros Hls; [eauto|].
      apply andb_prop in Hls. destruct Hls as [Hl Hls].
      destruct (has_column_get_loc _ _ Hl) as [j Hj].
      destruct (IH Hls) as [js Hjs].
      exists (j :: js). unfold f at 1. rewrite Hj, Hjs. reflexivity. }
    destruct (G labels H) as [js ->]. cbn. discriminate.
Qed.

Lemma getitem_list_new labels :
  labels <> [] -> getitem_list new labels = Raise KeyError.
Proof.
  destruct labels as [|l ls]; [congruence|]. reflexivity.
Qed.

Lemma project_selection table rs :
  has_columns table out_columns = true ->
  getitem_list (mkDataFrame (columns table) rs) out_columns
  = Ok (records_frame table rs).
Proof.
  intros H. rewrite getitem_list_ok by exact H. reflexivity.
Qed.

(** ** Lists *)

Lemma last_default {A : Type} (l : list A) (x d d' : A) :
  last (x :: l) d = last (x :: l) d'.
Proof.
  revert x. induction l as [|y l IH]; intros x; [reflexivity|].
  change (last (y :: l) d = last (y :: l) d'). apply IH.
Qed.

Lemma last_app_nonempty {A : Type} (l m : list A) (d : A) :
  m <> [] -> last (l ++ m) d = last m d.
Proof.
  intros Hm. induction l as [|x l IH]; [reflexivity|].
  cbn [app]. destruct (l ++ m) as [|y lm] eqn:E.
  - destruct l; [cbn in E; congruence | discriminate].
  - exact IH.
Qed.

(** ** The matcher *)

Section MatcherFacts.

Variables TOWNLANDS_DF COUNTIES_DF : DataFrame.

Lemma townlands_lookup_ok county name :
  has_column TOWNLANDS_DF "County" = true ->
  has_column TOWNLANDS_DF "English_Name" = true ->
  townlands_lookup TOWNLANDS_DF county name
  = Ok (mkDataFrame (columns TOWNLANDS_DF)
          (place_rows TOWNLANDS_DF county name)).
Proof.
  intros HC HN. unfold townlands_lookup.
  rewrite (getitem_series _ _ HC), (getitem_series _ _ HN). cbn.
  unfold loc, series_eq. rewrite !map_map, series_and_map, select_map.
  reflexivity.
Qed.

Lemma counties_lookup_ok county :
  has_column COUNTIES_DF "County" = true ->
  counties_lookup COUNTIES_DF county
  = Ok (mkDataFrame (columns COUNTIES_DF) (county_rows COUNTIES_DF county)).
Proof.
  intros HC. unfold counties_lookup.
  rewrite (getitem_series _ _ HC). cbn.
  unfold loc, series_eq. rewrite map_map, select_map. reflexivity.
Qed.

Lemma while_loop_nil df : while_loop TOWNLANDS_DF COUNTIES_DF df [] = ([], Ok df).
Proof. reflexivity. Qed.

Lemma while_loop_done df ts :
  empty df = false -> while_loop TOWNLANDS_DF COUNTIES_DF df ts = (ts, Ok df).
Proof.
  intros H. destruct ts as [|t ts]; cbn; [reflexivity|].
  now rewrite H.
Qed.

Section WithColumns.

Hypothesis townlands_county : has_column TOWNLANDS_DF "County" = true.
Hypothesis townlands_name : has_column TOWNLANDS_DF "English_Name" = true.
Hypothesis counties_county : has_column COUNTIES_DF "County" = true.

(** The last turn: one token left, the county lookup decides. *)
Lemma while_loop_single df t :
  empty df = true ->
  while_loop TOWNLANDS_DF COUNTIES_DF df [t]
  = ([], Ok (mkDataFrame (columns COUNTIES_DF)
               (county_rows COUNTIES_DF t))).
Proof.
  intros H. cbn. rewrite H.
  rewrite townlands_lookup_ok by assumption.
  rewrite counties_lookup_ok by assumption. reflexivity.
Qed.

(** A turn with two tokens or more: the place lookup decides. *)
Lemma while_loop_step df t x rest :
  empty df = true ->
  while_loop TOWNLANDS_DF COUNTIES_DF df (t :: x :: rest)
  = match place_rows TOWNLANDS_DF (last (x :: rest) t) t with
    | [] => while_loop TOWNLANDS_DF COUNTIES_DF (mkDataFrame (columns TOWNLANDS_DF) []) (x :: rest)
    | r :: rs => (x :: rest, Ok (mkDataFrame (columns TOWNLANDS_DF) (r :: rs)))
    end.
Proof.
  intros H.
  change (while_loop TOWNLANDS_DF COUNTIES_DF df (t :: x :: rest))
    with (if empty df then
            match townlands_lookup TOWNLANDS_DF (last (t :: x :: rest) t) t with
            | Raise e => (t :: x :: rest, Raise e)
            | Ok townlands_match =>
                match (if Nat.eqb (List.length (t :: x :: rest)) 1
                       then counties_lookup COUNTIES_DF t
                       else Ok townlands_match) with
                | Raise e => (t :: x :: rest, Raise e)
                | Ok df' => while_loop TOWNLANDS_DF COUNTIES_DF df' (x :: rest)
                end
            end
          else (t :: x :: rest, Ok df)).
  rewrite H. rewrite townlands_lookup_ok by assumption.
  change (last (t :: x :: rest) t) with (last (x :: rest) t).
  change (Nat.eqb (List.length (t :: x :: rest)) 1) with false.
  cbv iota.
  destruct (place_rows TOWNLANDS_DF (last (x :: rest) t) t) as [|r rs] eqn:E.
  - reflexivity.
  - apply while_loop_done. apply empty_mk.
    apply (has_column_columns _ _ townlands_county).
Qed.

Lemma empty_no_rows : empty (mkDataFrame (columns TOWNLANDS_DF) []) = true.
Proof.
  rewrite empty_mk; [reflexivity|].
  apply (has_column_columns _ _ townlands_county).
Qed.

(** The search stops at the first token whose place rows are not
    empty, when it is not the last token. *)
Lemma while_loop_found county pre t post df :
  empty df = true ->
  Forall (fun p => place_rows TOWNLANDS_DF county p = []) pre ->
  place_rows TOWNLANDS_DF county t <> [] ->
  post <> [] -> last post "" = county ->
  while_loop TOWNLANDS_DF COUNTIES_DF df (pre ++ t :: post)
  = (post, Ok (mkDataFrame (columns TOWNLANDS_DF)
                 (place_rows TOWNLANDS_DF county t))).
Proof.
  intros Hdf Hpre Ht Hpost Hlast. revert df Hdf.
  assert (L : forall d, last post d = county).
  { intros d. destruct post as [|x rest]; [congruence|].
    rewrite <- Hlast. apply last_default. }
  induction Hpre as [|p pre Hp Hpre IH]; intros df Hdf.
  - destruct post as [|x rest]; [congruence|]. cbn [app].
    rewrite while_loop_step by assumption. rewrite (L t).
    destruct (place_rows TOWNLANDS_DF county t); [congruence|reflexivity].
  - cbn [app]. destruct (pre ++ t :: post) as [|x rest] eqn:E.
    { destruct pre; discriminate. }
    rewrite while_loop_step by assumption.
    assert (Hl : last (x :: rest) p = county).
    { rewrite <- E. rewrite last_app_nonempty by discriminate.
      rewrite (last_default post t p "").
      destruct post as [|y post']; [congruence|]. apply (L ""). }
    rewrite Hl, Hp. apply IH. apply empty_no_rows.
Qed.

(** With no place match before the last token, the search ends on
    the county lookup. *)
Lemma while_loop_fallback county pre df :
  empty df = true ->
  Forall (fun p => place_rows TOWNLANDS_DF county p = []) pre ->
  while_loop TOWNLANDS_DF COUNTIES_DF df (pre ++ [county])
  = ([], Ok (mkDataFrame (columns COUNTIES_DF)
               (county_rows COUNTIES_DF county))).
Proof.
  intros Hdf Hpre. revert df Hdf.
  induction Hpre as [|p pre Hp Hpre IH]; intros df Hdf.
  - apply while_loop_single. exact Hdf.
  - cbn [app]. destruct (pre ++ [county]) as [|x rest] eqn:E.
    { destruct pre; discriminate. }
    rewrite while_loop_step by assumption.
    assert (Hl : last (x :: rest) p = county).
    { rewrite <- E. rewrite last_app_nonempty by discriminate.
      reflexivity. }
    rewrite Hl, Hp. apply IH. apply empty_no_rows.
Qed.

End WithColumns.

End MatcherFacts.

Lemma extract_gps_coordinates_eq TOWNLANDS_DF COUNTIES_DF ts :
  extract_gps_coordinates TOWNLANDS_DF COUNTIES_DF ts
  = (fst (while_loop TOWNLANDS_DF COUNTIES_DF new ts),
     df <- snd (while_loop TOWNLANDS_DF COUNTIES_DF new ts) ;;
     getitem_list df out_columns).
Proof.
  unfold extract_gps_coordinates.
  destruct (while_loop TOWNLANDS_DF COUNTIES_DF new ts); reflexivity.
Qed.

Lemma schema_columns df :
  has_columns df out_columns = true ->
  has_column df "County" = true /\ has_column df "English_Name" = true.
Proof.
  intros H. split; apply (has_columns_in _ _ _ H); cbn; auto.
Qed.

Lemma nth_split_at {A : Type} (l : list A) (d : A) (i : nat) :
  i < List.length l -> l = firstn i l ++ nth i l d :: skipn (S i) l.
Proof.
  revert i. induction l as [|a l IH]; intros i Hi; cbn in Hi; [lia|].
  destruct i as [|i]; [reflexivity|].
  cbn [firstn nth app]. rewrite skipn_cons. f_equal. apply IH. lia.
Qed.

Lemma Forall_firstn_nth {A : Type} (P : A -> Prop) (l : list A) (d : A) (i : nat) :
  i <= List.length l -> (forall j, j < i -> P (nth j l d)) ->
  Forall P (firstn i l).
Proof.
  revert i. induction l as [|a l IH]; intros i Hi H.
  - rewrite firstn_nil. constructor.
  - destruct i as [|i]; [constructor|]. cbn [firstn]. constructor.
    + apply (H 0). lia.
    + apply IH; [cbn in Hi; lia|]. intros j Hj. apply (H (S j)). lia.
Qed.

(** The matcher on a list with two tokens or more, split at the token
    that matched. *)
Lemma extract_found TOWNLANDS_DF COUNTIES_DF county pre t post :
  has_columns TOWNLANDS_DF out_columns = true ->
  has_columns COUNTIES_DF out_columns = true ->
  Forall (fun p => place_rows TOWNLANDS_DF county p = []) pre ->
  place_rows TOWNLANDS_DF county t <> [] ->
  post <> [] -> last post "" = county ->
  extract_gps_coordinates TOWNLANDS_DF COUNTIES_DF (pre ++ t :: post)
  = (post, Ok (records_frame TOWNLANDS_DF (place_rows TOWNLANDS_DF county t))).
Proof.
  intros HT HC Hpre Ht Hpost Hlast.
  destruct (schema_columns _ HT) as [HT1 HT2].
  destruct (schema_columns _ HC) as [HC1 _].
  rewrite extract_gps_coordinates_eq.
  rewrite (while_loop_found TOWNLANDS_DF COUNTIES_DF HT1 HT2 county pre t post new)
    by (assumption || reflexivity).
  cbn [fst snd bind]. now rewrite project_selection.
Qed.

Lemma extract_fallback TOWNLANDS_DF COUNTIES_DF county pre :
  has_columns TOWNLANDS_DF out_columns = true ->
  has_columns COUNTIES_DF out_columns = true ->
  Forall (fun p => place_rows TOWNLANDS_DF county p = []) pre ->
  extract_gps_coordinates TOWNLANDS_DF COUNTIES_DF (pre ++ [county])
  = ([], Ok (records_frame COUNTIES_DF (county_rows COUNTIES_DF county))).
Proof.
  intros HT HC Hpre.
  destruct (schema_columns _ HT) as [HT1 HT2].
  destruct (schema_columns _ HC) as [HC1 _].
  rewrite extract_gps_coordinates_eq.
  rewrite (while_loop_fallback TOWNLANDS_DF COUNTIES_DF HT1 HT2 HC1 county pre new)
    by (assumption || reflexivity).
  cbn [fst snd bind]. now rewrite project_selection.
Qed.

(** C1.  On a list of n >= 2 tokens, with both tables carrying the four
    output columns, the matcher returns the place rows whose County is
    the last token and whose English_Name is the token at the smallest
    position i <= n-2 where there are any; when there are none at any
    such position it returns the county rows whose County is the last
    token.  The county anchor is the last token of the original list
    throughout. *)
Theorem match_progressive (TOWNLANDS_DF COUNTIES_DF : DataFrame)
    (ts : list string) :
  has_columns TOWNLANDS_DF out_columns = true ->
  has_columns COUNTIES_DF out_columns = true ->
  2 <= List.length ts ->
  let county := last ts "" in
  let n := List.length ts in
  (forall i, i <= n - 2 ->
     (forall j, j < i ->
        place_rows TOWNLANDS_DF county (nth j ts "") = []) ->
     place_rows TOWNLANDS_DF county (nth i ts "") <> [] ->
     snd (extract_gps_coordinates TOWNLANDS_DF COUNTIES_DF ts)
     = Ok (records_frame TOWNLANDS_DF
             (place_rows TOWNLANDS_DF county (nth i ts ""))))
  /\
  ((forall i, i <= n - 2 ->
      place_rows TOWNLANDS_DF county (nth i ts "") = []) ->
   snd (extract_gps_coordinates TOWNLANDS_DF COUNTIES_DF ts)
   = Ok (records_frame COUNTIES_DF (county_rows COUNTIES_DF county))).
Proof.
  intros HT HC Hn county n. split.
  - intros i Hi Hbefore Hhere.
    assert (Hlt : i < List.length ts) by (subst n; lia).
    pose proof (nth_split_at ts "" i Hlt) as E.
    assert (Hpost : skipn (S i) ts <> []).
    { intros E0. apply (f_equal (@List.length string)) in E0.
      rewrite length_skipn in E0. cbn in E0. subst n. lia. }
    assert (Hlast : last (skipn (S i) ts) "" = county).
    { subst county. rewrite E at 2.
      rewrite last_app_nonempty by discriminate.
      destruct (skipn (S i) ts) as [|x rest]; [congruence|]. reflexivity. }
    rewrite E at 1.
    rewrite (extract_found TOWNLANDS_DF COUNTIES_DF county); try assumption.
    + reflexivity.
    + apply Forall_firstn_nth with (d := ""); [lia | exact Hbefore].
  - intros Hnone.
    destruct (exists_last (l := ts)) as [pre [c E]].
    { intros E0. rewrite E0 in Hn. cbn in Hn. lia. }
    assert (Hc : county = c) by (subst county; rewrite E; apply last_last).
    assert (Hlen : List.length pre = n - 1).
    { subst n. rewrite E, length_app. cbn. lia. }
    assert (Hpre : Forall (fun p => place_rows TOWNLANDS_DF county p = []) pre).
    { replace pre with (firstn (n - 1) ts).
      - apply Forall_firstn_nth with (d := ""); [subst n; lia|].
        intros j Hj. apply Hnone. lia.
      - rewrite E, firstn_app, Hlen, Nat.sub_diag, firstn_O, app_nil_r.
        rewrite <- Hlen. apply firstn_all. }
    rewrite E at 1. rewrite <- Hc.
    rewrite (extract_fallback TOWNLANDS_DF COUNTIES_DF county); try assumption.
    reflexivity.
Qed.

(** C3.  On a single token t, with both tables carrying the four output
    columns, the matcher returns exactly the county rows whose County is
    t, whatever the places table holds: the place lookup of that turn is
    overwritten, also when a place row has t as County and as
    English_Name. *)
Theorem match_single_token (TOWNLANDS_DF COUNTIES_DF : DataFrame) (t : string) :
  has_columns TOWNLANDS_DF out_columns = true ->
  has_columns COUNTIES_DF out_columns = true ->
  snd (extract_gps_coordinates TOWNLANDS_DF COUNTIES_DF [t])
  = Ok (records_frame COUNTIES_DF (county_rows COUNTIES_DF t)).
Proof.
  intros HT HC.
  change [t] with ([] ++ [t]).
  rewrite (extract_fallback TOWNLANDS_DF COUNTIES_DF t [] HT HC (Forall_nil _)).
  reflexivity.
Qed.

(** C4.  On the empty list the loop makes no turn, [_matched_df] is
    still the frame without columns, and selecting the four output
    columns from it raises [KeyError]: the matcher does not return an
    empty result. *)
Theorem match_empty_list_raises (TOWNLANDS_DF COUNTIES_DF : DataFrame) :
  extract_gps_coordinates TOWNLANDS_DF COUNTIES_DF [] = ([], Raise KeyError).
Proof. reflexivity. Qed.

(** ** What the matcher leaves of the caller's list *)

Lemma turns_bounds places county ts :
  ts <> [] ->
  1 <= turns places county ts <= List.length ts.
Proof.
  induction ts as [|t rest IH]; [congruence|]. intros _.
  cbn [turns]. destruct rest as [|x rest']; [cbn; lia|].
  destruct (place_rows places county t); [|cbn; lia].
  assert (H : x :: rest' <> []) by discriminate.
  specialize (IH H). cbn [List.length] in *. lia.
Qed.

Lemma while_loop_leftover TOWNLANDS_DF COUNTIES_DF ts df :
  has_column TOWNLANDS_DF "County" = true ->
  has_column TOWNLANDS_DF "English_Name" = true ->
  has_column COUNTIES_DF "County" = true ->
  empty df = true -> ts <> [] ->
  fst (while_loop TOWNLANDS_DF COUNTIES_DF df ts)
  = skipn (turns TOWNLANDS_DF (last ts "") ts) ts.
Proof.
  intros HT1 HT2 HC1. revert df.
  induction ts as [|t rest IH]; [congruence|]. intros df Hdf _.
  destruct rest as [|x rest'].
  - rewrite while_loop_single by assumption. reflexivity.
  - rewrite while_loop_step by assumption.
    change (last (t :: x :: rest') "") with (last (x :: rest') "").
    rewrite (last_default rest' x t "").
    cbn [turns].
    destruct (place_rows TOWNLANDS_DF (last (x :: rest') "") t) as [|r rs].
    + rewrite IH; [reflexivity | | discriminate].
      apply empty_no_rows. exact HT1.
    + reflexivity.
Qed.

Lemma leftover_after_call TOWNLANDS_DF COUNTIES_DF ts :
  has_columns TOWNLANDS_DF out_columns = true ->
  has_columns COUNTIES_DF out_columns = true ->
  ts <> [] ->
  fst (extract_gps_coordinates TOWNLANDS_DF COUNTIES_DF ts)
  = skipn (turns TOWNLANDS_DF (last ts "") ts) ts.
Proof.
  intros HT HC Hts.
  destruct (schema_columns _ HT) as [HT1 HT2].
  destruct (schema_columns _ HC) as [HC1 _].
  rewrite extract_gps_coordinates_eq. cbn [fst].
  apply while_loop_leftover; (assumption || reflexivity).
Qed.

(** C2, as the code has it.  The matcher works on the caller's own
    list.  With both tables carrying the four output columns, a call on
    a list that is not empty leaves it without its first k tokens, k >= 1
    being the number of turns the loop made (all the tokens when the
    search went on to the county lookup): the list the caller sees
    afterwards is never the list it passed. *)
Theorem match_consumes_tokens (TOWNLANDS_DF COUNTIES_DF : DataFrame)
    (ts : list string) :
  has_columns TOWNLANDS_DF out_columns = true ->
  has_columns COUNTIES_DF out_columns = true ->
  ts <> [] ->
  let k := turns TOWNLANDS_DF (last ts "") ts in
  1 <= k <= List.length ts
  /\ fst (extract_gps_coordinates TOWNLANDS_DF COUNTIES_DF ts) = skipn k ts
  /\ fst (extract_gps_coordinates TOWNLANDS_DF COUNTIES_DF ts) <> ts.
Proof.
  intros HT HC Hts k.
  destruct (schema_columns _ HT) as [HT1 HT2].
  destruct (schema_columns _ HC) as [HC1 _].
  pose proof (turns_bounds TOWNLANDS_DF (last ts "") ts Hts) as Hk.
  fold k in Hk.
  assert (E : fst (extract_gps_coordinates TOWNLANDS_DF COUNTIES_DF ts)
              = skipn k ts)
    by (apply leftover_after_call; assumption).
  repeat split; try lia; try exact E.
  rewrite E. intros E'. apply (f_equal (@List.length string)) in E'.
  rewrite length_skipn in E'.
  assert (0 < List.length ts) by (destruct ts; [congruence | cbn; lia]).
  lia.
Qed.

(** The result of a call, for any list that is not empty: a frame with
    the four output columns, holding place rows when the loop stopped
    before the last token and county rows otherwise. *)
Lemma match_exit_states (TOWNLANDS_DF COUNTIES_DF : DataFrame)
    (ts : list string) :
  has_columns TOWNLANDS_DF out_columns = true ->
  has_columns COUNTIES_DF out_columns = true ->
  ts <> [] ->
  exists rs,
    (snd (extract_gps_coordinates TOWNLANDS_DF COUNTIES_DF ts)
     = Ok (records_frame TOWNLANDS_DF rs)
     /\ rs <> []
     /\ fst (extract_gps_coordinates TOWNLANDS_DF COUNTIES_DF ts) <> [])
    \/
    (snd (extract_gps_coordinates TOWNLANDS_DF COUNTIES_DF ts)
     = Ok (records_frame COUNTIES_DF rs)
     /\ rs = county_rows COUNTIES_DF (last ts "")
     /\ fst (extract_gps_coordinates TOWNLANDS_DF COUNTIES_DF ts) = []).
Proof.
  intros HT HC Hts.
  destruct (schema_columns _ HT) as [HT1 HT2].
  destruct (schema_columns _ HC) as [HC1 _].
  rewrite extract_gps_coordinates_eq. cbn [fst snd].
  assert (G : forall df, empty df = true ->
    exists rs,
      (while_loop TOWNLANDS_DF COUNTIES_DF df ts
       = (fst (while_loop TOWNLANDS_DF COUNTIES_DF df ts),
          Ok (mkDataFrame (columns TOWNLANDS_DF) rs))
       /\ rs <> []
       /\ fst (while_loop TOWNLANDS_DF COUNTIES_DF df ts) <> [])
      \/
      (while_loop TOWNLANDS_DF COUNTIES_DF df ts
       = ([], Ok (mkDataFrame (columns COUNTIES_DF) rs))
       /\ rs = county_rows COUNTIES_DF (last ts ""))).
  { induction ts as [|t rest IH]; [congruence|]. intros df Hdf.
    destruct rest as [|x rest'].
    - rewrite while_loop_single by assumption.
      eexists. right. split; reflexivity.
    - rewrite while_loop_step by assumption.
      change (last (t :: x :: rest') "") with (last (x :: rest') "").
      destruct (place_rows TOWNLANDS_DF (last (x :: rest') t) t) as [|r rs].
      + apply IH; [discriminate|]. apply empty_no_rows. exact HT1.
      + exists (r :: rs). left. cbn [fst].
        repeat split; discriminate. }
  destruct (G new eq_refl) as [rs [[E [Hrs Hl]] | [E Hrs]]]; exists rs.
  - left. rewrite E. cbn [fst snd bind].
    rewrite project_selection by assumption. auto.
  - right. rewrite E. cbn [fst snd bind].
    rewrite project_selection by assumption. auto.
Qed.

(** C9.  On the empty list the loop makes no turn and leaves the frame
    without columns in [_matched_df]; no lookup was made, and the call
    ends in [KeyError]: neither a match nor an empty result. *)
Theorem match_empty_list_exit (TOWNLANDS_DF COUNTIES_DF : DataFrame) :
  while_loop TOWNLANDS_DF COUNTIES_DF new [] = ([], Ok new)
  /\ columns new = []
  /\ forall df,
       snd (extract_gps_coordinates TOWNLANDS_DF COUNTIES_DF []) <> Ok df.
Proof.
  repeat split. intros df. cbn. discriminate.
Qed.

(** C7, as the code has it.  Two calls on lists of their own holding
    the same tokens return the same result.  Two calls on one list do
    not: the second call runs on what the first one left, the tokens
    after its k turns, and when the first call went on to the county
    lookup nothing is left and the second call raises [KeyError]. *)
Theorem match_twice (TOWNLANDS_DF COUNTIES_DF : DataFrame) (ts : list string) :
  has_columns TOWNLANDS_DF out_columns = true ->
  has_columns COUNTIES_DF out_columns = true ->
  ts <> [] ->
  let k := turns TOWNLANDS_DF (last ts "") ts in
  fst (call_twice_copies TOWNLANDS_DF COUNTIES_DF ts)
  = snd (call_twice_copies TOWNLANDS_DF COUNTIES_DF ts)
  /\ fst (call_twice TOWNLANDS_DF COUNTIES_DF ts)
     = snd (extract_gps_coordinates TOWNLANDS_DF COUNTIES_DF ts)
  /\ snd (call_twice TOWNLANDS_DF COUNTIES_DF ts)
     = snd (extract_gps_coordinates TOWNLANDS_DF COUNTIES_DF (skipn k ts))
  /\ (k = List.length ts ->
      snd (call_twice TOWNLANDS_DF COUNTIES_DF ts) = Raise KeyError).
Proof.
  intros HT HC Hts k.
  pose proof (leftover_after_call TOWNLANDS_DF COUNTIES_DF ts HT HC Hts)
    as E.
  fold k in E.
  assert (E2 : snd (call_twice TOWNLANDS_DF COUNTIES_DF ts)
     = snd (extract_gps_coordinates TOWNLANDS_DF COUNTIES_DF (skipn k ts))).
  { unfold call_twice.
    destruct (extract_gps_coordinates TOWNLANDS_DF COUNTIES_DF ts)
      as [l1 r1] eqn:E1.
    cbn [fst] in E. subst l1.
    destruct (extract_gps_coordinates TOWNLANDS_DF COUNTIES_DF (skipn k ts));
      reflexivity. }
  repeat split.
  - unfold call_twice_copies.
    destruct (extract_gps_coordinates TOWNLANDS_DF COUNTIES_DF ts); reflexivity.
  - unfold call_twice.
    destruct (extract_gps_coordinates TOWNLANDS_DF COUNTIES_DF ts) as [l1 r1].
    destruct (extract_gps_coordinates TOWNLANDS_DF COUNTIES_DF l1);
      reflexivity.
  - exact E2.
  - intros Hk. rewrite E2, Hk, skipn_all. reflexivity.
Qed.

(** ** Where the rows of a result come from *)

(** The frame the loop ends with is the one it started from or a
    selection of rows of one of the two tables. *)
Lemma while_loop_origin TOWNLANDS_DF COUNTIES_DF ts :
  forall df0 l df,
    while_loop TOWNLANDS_DF COUNTIES_DF df0 ts = (l, Ok df) ->
    df = df0
    \/ (exists mask, df = loc TOWNLANDS_DF mask)
    \/ (exists mask, df = loc COUNTIES_DF mask).
Proof.
  induction ts as [|t rest IH]; intros df0 l df H.
  - cbn in H. injection H as _ <-. now left.
  - cbn [while_loop] in H. destruct (empty df0).
    + unfold townlands_lookup in H.
      destruct (getitem TOWNLANDS_DF "County") as [c|e]; cbn [bind] in H;
        [|discriminate].
      destruct (getitem TOWNLANDS_DF "English_Name") as [n|e];
        cbn [bind] in H; [|discriminate].
      destruct (Nat.eqb (List.length (t :: rest)) 1).
      * unfold counties_lookup in H.
        destruct (getitem COUNTIES_DF "County") as [c'|e]; cbn [bind] in H;
          [|discriminate].
        apply IH in H. destruct H as [-> | H]; [|now right].
        right. right. eauto.
      * apply IH in H. destruct H as [-> | H]; [|now right].
        right. left. eauto.
    + injection H as _ <-. now left.
Qed.

Lemma project_loc table mask df :
  getitem_list (loc table mask) out_columns = Ok df ->
  drawn_from table df.
Proof.
  intros H. apply getitem_list_inv in H. destruct H as [_ ->].
  exists (select mask (rows table)). split; [apply select_incl | reflexivity].
Qed.

(** C10.  Whatever frame a call returns, empty or not, all its rows are
    rows of the places table or all its rows are rows of the counties
    table, cut down to the four output columns. *)
Theorem match_single_table (TOWNLANDS_DF COUNTIES_DF : DataFrame)
    (ts : list string) (df : DataFrame) :
  snd (extract_gps_coordinates TOWNLANDS_DF COUNTIES_DF ts) = Ok df ->
  drawn_from TOWNLANDS_DF df \/ drawn_from COUNTIES_DF df.
Proof.
  rewrite extract_gps_coordinates_eq. cbn [snd].
  destruct (while_loop TOWNLANDS_DF COUNTIES_DF new ts) as [l [df1|e]] eqn:E;
    cbn [snd bind]; [|discriminate].
  intros H.
  destruct (while_loop_origin _ _ _ _ _ _ E) as [-> | [[mask ->] | [mask ->]]].
  - cbn in H. discriminate.
  - left. eapply project_loc; eassumption.
  - right. eapply project_loc; eassumption.
Qed.

(** ** The tokenizer *)

Lemma remove_length x l l' :
  PyList.remove x l = Ok l' -> List.length l = S (List.length l').
Proof.
  revert l'. induction l as [|y l IH]; intros l' H; cbn in H; [discriminate|].
  destruct (String.eqb y x).
  - injection H as <-. reflexivity.
  - destruct (PyList.remove x l) as [l''|e]; cbn in H; [|discriminate].
    injection H as <-. cbn. f_equal. now apply IH.
Qed.

(** The fuel [remove_empty] gives the loop is enough: a turn more
    changes nothing, the iterator is past the end of the list by then. *)
Lemma remove_empty_loop_fuel fuel it l :
  List.length l <= fuel + it ->
  remove_empty_loop (S fuel) it l = remove_empty_loop fuel it l.
Proof.
  revert it l. induction fuel as [|fuel IH]; intros it l Hlen.
  - cbn [remove_empty_loop].
    assert (E : nth_error l it = None) by (apply nth_error_None; lia).
    now rewrite E.
  - change (remove_empty_loop (S (S fuel)) it l)
      with (match nth_error l it with
            | None => Ok l
            | Some word =>
                if String.eqb word "" then
                  l' <- PyList.remove word l ;;
                  remove_empty_loop (S fuel) (S it) l'
                else remove_empty_loop (S fuel) (S it) l
            end).
    change (remove_empty_loop (S fuel) it l)
      with (match nth_error l it with
            | None => Ok l
            | Some word =>
                if String.eqb word "" then
                  l' <- PyList.remove word l ;;
                  remove_empty_loop fuel (S it) l'
                else remove_empty_loop fuel (S it) l
            end).
    destruct (nth_error l it) as [word|]; [|reflexivity].
    destruct (String.eqb word "").
    + destruct (PyList.remove word l) as [l'|e] eqn:E; [|reflexivity].
      cbn [bind]. apply IH. apply remove_length in E. lia.
    + apply IH. lia.
Qed.

Lemma remove_empty_more_fuel l extra :
  remove_empty_loop (List.length l + extra) 0 l = remove_empty l.
Proof.
  unfold remove_empty. induction extra as [|extra IH].
  - now rewrite Nat.add_0_r.
  - rewrite Nat.add_succ_r, remove_empty_loop_fuel by lia. exact IH.
Qed.

Lemma remove_after_prefix pre rest :
  Forall (fun w => is_empty_string w = false) pre ->
  PyList.remove "" (pre ++ "" :: rest) = Ok (pre ++ rest).
Proof.
  induction 1 as [|w pre Hw Hpre IH]; [reflexivity|].
  cbn [app PyList.remove]. unfold is_empty_string in Hw. rewrite Hw, IH.
  reflexivity.
Qed.

Lemma nth_error_middle {A : Type} (pre : list A) (w : A) (rest : list A) :
  nth_error (pre ++ w :: rest) (List.length pre) = Some w.
Proof.
  rewrite nth_error_app2 by lia. now rewrite Nat.sub_diag.
Qed.

Lemma nth_error_past {A : Type} (l : list A) (n : nat) :
  List.length l <= n -> nth_error l n = None.
Proof. apply nth_error_None. Qed.

(** When no two neighbouring segments are both empty, the loop removes
    every empty segment: the element it skips after a removal is never
    an empty one. *)
Lemma remove_empty_loop_filter fuel :
  forall pre suf,
    Forall (fun w => is_empty_string w = false) pre ->
    adjacent_empty suf = false ->
    List.length suf <= fuel ->
    remove_empty_loop fuel (List.length pre) (pre ++ suf)
    = Ok (pre ++ filter (fun w => negb (is_empty_string w)) suf).
Proof.
  induction fuel as [|fuel IH]; intros pre suf Hpre Hadj Hlen.
  - destruct suf; [reflexivity | cbn in Hlen; lia].
  - destruct suf as [|w rest].
    + cbn [remove_empty_loop filter]. rewrite app_nil_r.
      now rewrite nth_error_past by lia.
    + cbn [remove_empty_loop]. rewrite nth_error_middle.
      cbn [adjacent_empty] in Hadj. apply orb_false_elim in Hadj.
      destruct Hadj as [Hw Hrest]. cbn [List.length] in Hlen.
      cbn [filter]. fold (is_empty_string w).
      destruct (is_empty_string w) eqn:Ew; cbn [negb].
      * apply String.eqb_eq in Ew. subst w.
        rewrite remove_after_prefix by assumption. cbn [bind].
        destruct rest as [|w' rest'].
        -- cbn [filter]. rewrite app_nil_r.
           destruct fuel; [reflexivity|]. cbn [remove_empty_loop].
           now rewrite nth_error_past by lia.
        -- cbn [andb] in Hw. cbn [adjacent_empty] in Hrest.
           apply orb_false_elim in Hrest. destruct Hrest as [_ Hrest'].
           cbn [filter]. rewrite Hw. cbn [negb].
           replace (pre ++ w' :: rest') with ((pre ++ [w']) ++ rest')
             by (rewrite <- app_assoc; reflexivity).
           replace (S (List.length pre)) with (List.length (pre ++ [w']))
             by (rewrite length_app; cbn; lia).
           rewrite IH.
           ++ rewrite <- app_assoc. reflexivity.
           ++ apply Forall_app. split; [assumption|]. now constructor.
           ++ exact Hrest'.
           ++ cbn [List.length] in Hlen. lia.
      * replace (pre ++ w :: rest) with ((pre ++ [w]) ++ rest)
          by (rewrite <- app_assoc; reflexivity).
        replace (S (List.length pre)) with (List.length (pre ++ [w]))
          by (rewrite length_app; cbn; lia).
        rewrite IH.
        -- rewrite <- app_assoc. reflexivity.
        -- apply Forall_app. split; [assumption|]. now constructor.
        -- exact Hrest.
        -- lia.
Qed.

Lemma remove_empty_filter l :
  adjacent_empty l = false ->
  remove_empty l = Ok (filter (fun w => negb (is_empty_string w)) l).
Proof.
  intros H. unfold remove_empty.
  apply (remove_empty_loop_filter (List.length l) [] l);
    [constructor | exact H | lia].
Qed.

Lemma clean_word_ok w :
  is_empty_string w = false -> clean_word w = Ok (clean w).
Proof. destruct w; [discriminate | reflexivity]. Qed.

Lemma mapM_clean_word l :
  Forall (fun w => is_empty_string w = false) l ->
  mapM clean_word l = Ok (map clean l).
Proof.
  induction 1 as [|w l Hw Hl IH]; [reflexivity|].
  cbn [mapM map]. rewrite (clean_word_ok _ Hw), IH. reflexivity.
Qed.

Lemma filter_nonempty l :
  Forall (fun w => is_empty_string w = false)
         (filter (fun w => negb (is_empty_string w)) l).
Proof.
  apply Forall_forall. intros w Hw. apply filter_In in Hw.
  destruct Hw as [_ Hw]. now apply negb_true_iff in Hw.
Qed.

(** The tokenizer is the pure pipeline when no two neighbouring
    segments are both empty. *)
Lemma address_handler_segments s :
  adjacent_empty (PyStr.split PyStr.comma s) = false ->
  address_handler s = Ok (tokens_of_segments (PyStr.split PyStr.comma s)).
Proof.
  intros H. unfold address_handler.
  rewrite (remove_empty_filter _ H). cbn [bind].
  rewrite mapM_clean_word by apply filter_nonempty. reflexivity.
Qed.

(** C6, as the code has it.  When no two neighbouring comma-separated
    segments are both empty, the tokenizer returns normally, and its
    tokens are those of the segments that are not the empty string: a
    segment that is the empty string gives no token.  A segment of one
    space is not discarded; it gives the empty token.  "Foo,,Bar" gives
    FOO, BAR. *)
Theorem tokenize_discards_empty_segments (s : string) :
  adjacent_empty (PyStr.split PyStr.comma s) = false ->
  address_handler s
  = Ok (flat_map emit_word
          (map clean (filter (fun w => negb (String.eqb w ""))
                        (PyStr.split PyStr.comma s))))
  /\ address_handler "Foo,,Bar" = Ok ["FOO"; "BAR"]
  /\ address_handler "Foo, ,Bar" = Ok ["FOO"; ""; "BAR"].
Proof.
  intros H. split; [|split; reflexivity].
  now apply address_handler_segments.
Qed.

(** C8.  The tokens of "Johnstown, Bennekerry, Co Carlow". *)
Theorem tokenize_johnstown :
  address_handler "Johnstown, Bennekerry, Co Carlow"
  = Ok ["JOHNSTOWN"; "BENNEKERRY"; "CO"; "CARLOW"].
Proof. reflexivity. Qed.

(** ** Addresses made of delimiters only *)

Lemma split_delimiters s :
  all_chars is_delimiter s = true ->
  Forall (fun w => all_chars is_blank w = true) (PyStr.split PyStr.comma s).
Proof.
  induction s as [|c s IH]; intros H.
  - repeat constructor.
  - cbn [all_chars] in H. apply andb_prop in H. destruct H as [Hc Hs].
    specialize (IH Hs). cbn [PyStr.split].
    destruct (Ascii.eqb c PyStr.comma) eqn:Ec.
    + constructor; [reflexivity | exact IH].
    + assert (Hb : is_blank c = true).
      { unfold is_delimiter in Hc. rewrite Ec in Hc. exact Hc. }
      destruct (PyStr.split PyStr.comma s) as [|w ws].
      * repeat constructor. cbn. now rewrite Hb.
      * inversion IH as [|? ? Hw Hws]; subst. constructor; [|exact Hws].
        cbn [all_chars]. now rewrite Hb, Hw.
Qed.

Lemma remove_dot_blank w :
  all_chars is_blank w = true ->
  all_chars is_space (PyStr.remove_char PyStr.dot w) = true.
Proof.
  induction w as [|c w IH]; intros H; [reflexivity|].
  cbn [all_chars] in H. apply andb_prop in H. destruct H as [Hc Hw].
  cbn [PyStr.remove_char]. destruct (Ascii.eqb c PyStr.dot) eqn:Ed.
  - now apply IH.
  - cbn [all_chars]. rewrite (IH Hw), andb_true_r.
    unfold is_blank in Hc. rewrite Ed, orb_false_r in Hc. exact Hc.
Qed.

Lemma clean_blank w :
  all_chars is_blank w = true -> all_chars is_space (clean w) = true.
Proof.
  destruct w as [|c w]; [reflexivity|]. intros H. unfold clean.
  destruct (Ascii.eqb c PyStr.space).
  - apply remove_dot_blank. cbn [all_chars] in H.
    apply andb_prop in H. tauto.
  - now apply remove_dot_blank.
Qed.

Lemma split_ws_spaces w :
  all_chars is_space w = true -> PyStr.split_ws w = [].
Proof.
  induction w as [|c w IH]; intros H; [reflexivity|].
  cbn [all_chars] in H. apply andb_prop in H. destruct H as [Hc Hw].
  apply Ascii.eqb_eq in Hc. subst c.
  cbn [PyStr.split_ws].
  change (PyStr.isspace PyStr.space) with true. cbv iota. now apply IH.
Qed.

(** A segment of spaces gives no token, or the empty token when it has
    no space at all. *)
Lemma emit_word_spaces w :
  all_chars is_space w = true -> Forall (fun t => t = "") (emit_word w).
Proof.
  intros H. unfold emit_word.
  destruct (PyStr.contains PyStr.space w) eqn:E.
  - rewrite (split_ws_spaces _ H). constructor.
  - destruct w as [|c w]; [repeat constructor|].
    cbn [all_chars] in H. apply andb_prop in H. destruct H as [Hc _].
    cbn [PyStr.contains] in E. unfold is_space in Hc. rewrite Hc in E.
    discriminate.
Qed.

Lemma tokens_of_blank_segments segments :
  Forall (fun w => all_chars is_blank w = true) segments ->
  Forall (fun t => t = "") (tokens_of_segments segments).
Proof.
  unfold tokens_of_segments.
  induction 1 as [|w ws Hw Hws IH]; [constructor|].
  cbn [filter]. destruct (is_empty_string w); cbn [negb]; [exact IH|].
  cbn [map flat_map]. apply Forall_app. split; [|exact IH].
  apply emit_word_spaces. now apply clean_blank.
Qed.

Lemma no_blank_place_rows places name :
  no_blank_county places = true -> place_rows places "" name = [].
Proof.
  unfold no_blank_county, place_rows.
  induction (rows places) as [|r rs IH]; intros H; [reflexivity|].
  cbn [forallb] in H. apply andb_prop in H. destruct H as [Hr Hrs].
  cbn [filter]. apply negb_true_iff in Hr. rewrite Hr. cbn [andb].
  now apply IH.
Qed.

Lemma no_blank_county_rows counties :
  no_blank_county counties = true -> county_rows counties "" = [].
Proof.
  unfold no_blank_county, county_rows.
  induction (rows counties) as [|r rs IH]; intros H; [reflexivity|].
  cbn [forallb] in H. apply andb_prop in H. destruct H as [Hr Hrs].
  cbn [filter]. apply negb_true_iff in Hr. rewrite Hr. now apply IH.
Qed.

(** Empty tokens match nothing in tables without an empty County. *)
Lemma match_empty_tokens TOWNLANDS_DF COUNTIES_DF tokens :
  has_columns TOWNLANDS_DF out_columns = true ->
  has_columns COUNTIES_DF out_columns = true ->
  no_blank_county TOWNLANDS_DF = true ->
  no_blank_county COUNTIES_DF = true ->
  Forall (fun t => t = "") tokens -> tokens <> [] ->
  snd (extract_gps_coordinates TOWNLANDS_DF COUNTIES_DF tokens)
  = Ok (mkDataFrame out_columns []).
Proof.
  intros HT HC BT BC Hall Hne.
  destruct (exists_last Hne) as [pre [c E]]. subst tokens.
  apply Forall_app in Hall. destruct Hall as [Hpre Hc].
  inversion Hc as [|? ? Hc' _]; subst.
  rewrite (extract_fallback TOWNLANDS_DF COUNTIES_DF "" pre HT HC).
  - cbn [snd]. rewrite (no_blank_county_rows _ BC). reflexivity.
  - apply Forall_forall. intros p _. now apply no_blank_place_rows.
Qed.

(** C5, as the code has it.  For an address made of commas, spaces and
    periods only, in which no two neighbouring comma-separated segments
    are both empty, the tokenizer returns normally and every token it
    returns is the empty string (" " gives one such token).  When there
    is such a token, the tables carry the four output columns and no row
    has an empty County, the tokenizer followed by the matcher returns
    the frame without rows. *)
Theorem tokenize_delimiters_only (TOWNLANDS_DF COUNTIES_DF : DataFrame)
    (s : string) :
  all_chars is_delimiter s = true ->
  adjacent_empty (PyStr.split PyStr.comma s) = false ->
  exists tokens,
    address_handler s = Ok tokens
    /\ Forall (fun t => t = "") tokens
    /\ (tokens <> [] ->
        has_columns TOWNLANDS_DF out_columns = true ->
        has_columns COUNTIES_DF out_columns = true ->
        no_blank_county TOWNLANDS_DF = true ->
        no_blank_county COUNTIES_DF = true ->
        api_filter TOWNLANDS_DF COUNTIES_DF s
        = Ok (mkDataFrame out_columns [])).
Proof.
  intros Hs Hadj.
  exists (tokens_of_segments (PyStr.split PyStr.comma s)).
  pose proof (address_handler_segments s Hadj) as E.
  pose proof (tokens_of_blank_segments _ (split_delimiters s Hs)) as Hall.
  split; [exact E|]. split; [exact Hall|].
  intros Hne HT HC BT BC. unfold api_filter. rewrite E. cbn [bind].
  now apply match_empty_tokens.
Qed.

(** ** The definitions at work *)

Example tokenize_three_commas :
  address_handler "Foo,,,Bar" = Raise IndexError
  /\ address_handler "," = Raise IndexError.
Proof. split; reflexivity. Qed.

Example tokenize_leading_space_period :
  address_handler " Foo., Bar" = Ok ["FOO"; "BAR"].
Proof. reflexivity. Qed.

Example tokenize_blank_addresses :
  address_handler "" = Ok [] /\ address_handler "  " = Ok []
  /\ address_handler "." = Ok [""].
Proof. repeat split; reflexivity. Qed.

Example match_johnstown :
  extract_gps_coordinates demo_townlands demo_counties
    ["JOHNSTOWN"; "BENNEKERRY"; "CO"; "CARLOW"]
  = (["BENNEKERRY"; "CO"; "CARLOW"],
     Ok (mkDataFrame out_columns
           [ [Some "CARLOW"; Some "JOHNSTOWN"; Some "52.82089152866102";
              Some "-6.868629101436554"];
             [Some "CARLOW"; Some "JOHNSTOWN"; Some "52.7100";
              Some "-6.7012"] ])).
Proof. reflexivity. Qed.

Example match_unknown_county :
  extract_gps_coordinates demo_townlands demo_counties ["NOWHERE"; "ATLANTIS"]
  = ([], Ok (mkDataFrame out_columns [])).
Proof. reflexivity. Qed.

(** A counties file without an English_Name column makes the county
    fallback raise. *)
Example match_narrow_counties :
  snd (extract_gps_coordinates demo_townlands narrow_counties ["CARLOW"])
  = Raise KeyError.
Proof. reflexivity. Qed.

Example api_filter_empty_address :
  api_filter demo_townlands demo_counties "" = Raise KeyError.
Proof. reflexivity. Qed.

(** ** The statements at concrete inputs *)

Lemma match_progressive_witness :
  has_columns demo_townlands out_columns = true
  /\ has_columns demo_counties out_columns = true
  /\ 2 <= List.length ["CO"; "JOHNSTOWN"; "CARLOW"]
  /\ snd (extract_gps_coordinates demo_townlands demo_counties
            ["CO"; "JOHNSTOWN"; "CARLOW"])
     = Ok (records_frame demo_townlands
             (place_rows demo_townlands "CARLOW" "JOHNSTOWN")).
Proof.
  assert (Hn : 2 <= List.length ["CO"; "JOHNSTOWN"; "CARLOW"]) by (cbn; lia).
  split; [reflexivity|]. split; [reflexivity|]. split; [exact Hn|].
  destruct (match_progressive demo_townlands demo_counties
              ["CO"; "JOHNSTOWN"; "CARLOW"] eq_refl eq_refl Hn) as [H _].
  apply (H 1).
  - cbn; lia.
  - intros j Hj. assert (j = 0) by lia. subst j. reflexivity.
  - vm_compute. discriminate.
Defined.

Lemma match_single_token_witness :
  has_columns demo_townlands out_columns = true
  /\ has_columns demo_counties out_columns = true
  /\ place_rows demo_townlands "CARLOW" "CARLOW" <> []
  /\ snd (extract_gps_coordinates demo_townlands demo_counties ["CARLOW"])
     = Ok (records_frame demo_counties (county_rows demo_counties "CARLOW")).
Proof.
  split; [reflexivity|]. split; [reflexivity|].
  split; [vm_compute; discriminate|].
  apply (match_single_token demo_townlands demo_counties "CARLOW");
    reflexivity.
Defined.

(** The list the caller passed is not what it holds after the call. *)
Lemma match_mutates_list :
  fst (extract_gps_coordinates demo_townlands demo_counties ["CO"; "CARLOW"])
  = []
  /\ fst (extract_gps_coordinates demo_townlands demo_counties ["CO"; "CARLOW"])
     <> ["CO"; "CARLOW"].
Proof. split; [reflexivity | vm_compute; discriminate]. Qed.

Lemma match_consumes_tokens_witness :
  let ts := ["JOHNSTOWN"; "BENNEKERRY"; "CO"; "CARLOW"] in
  let k := turns demo_townlands (last ts "") ts in
  1 <= k <= List.length ts
  /\ fst (extract_gps_coordinates demo_townlands demo_counties ts) = skipn k ts
  /\ fst (extract_gps_coordinates demo_townlands demo_counties ts) <> ts.
Proof.
  apply (match_consumes_tokens demo_townlands demo_counties
           ["JOHNSTOWN"; "BENNEKERRY"; "CO"; "CARLOW"]);
    [reflexivity | reflexivity | discriminate].
Defined.

(** The second of two calls on one list does not return what the first
    returned. *)
Lemma match_twice_differs :
  fst (call_twice demo_townlands demo_counties ["CO"; "CARLOW"])
  = Ok (mkDataFrame out_columns
          [ [Some "CARLOW"; Some "CARLOW"; Some "52.6900"; Some "-6.8100"] ])
  /\ snd (call_twice demo_townlands demo_counties ["CO"; "CARLOW"])
     = Raise KeyError
  /\ fst (call_twice demo_townlands demo_counties ["CO"; "CARLOW"])
     <> snd (call_twice demo_townlands demo_counties ["CO"; "CARLOW"]).
Proof. repeat split; [vm_compute; discriminate]. Qed.

Lemma match_twice_witness :
  let ts := ["CO"; "CARLOW"] in
  let k := turns demo_townlands (last ts "") ts in
  fst (call_twice_copies demo_townlands demo_counties ts)
  = snd (call_twice_copies demo_townlands demo_counties ts)
  /\ fst (call_twice demo_townlands demo_counties ts)
     = snd (extract_gps_coordinates demo_townlands demo_counties ts)
  /\ snd (call_twice demo_townlands demo_counties ts)
     = snd (extract_gps_coordinates demo_townlands demo_counties (skipn k ts))
  /\ (k = List.length ts ->
      snd (call_twice demo_townlands demo_counties ts) = Raise KeyError).
Proof.
  apply (match_twice demo_townlands demo_counties ["CO"; "CARLOW"]);
    [reflexivity | reflexivity | discriminate].
Defined.

Lemma match_single_table_witness :
  let df := mkDataFrame out_columns
              [ [Some "KILKENNY"; Some "JOHNSTOWN"; Some "52.6477";
                 Some "-7.2301"] ] in
  snd (extract_gps_coordinates demo_townlands demo_counties
         ["MAIN"; "JOHNSTOWN"; "KILKENNY"]) = Ok df
  /\ (drawn_from demo_townlands df \/ drawn_from demo_counties df).
Proof.
  split; [reflexivity|].
  apply (match_single_table demo_townlands demo_counties
           ["MAIN"; "JOHNSTOWN"; "KILKENNY"]).
  reflexivity.
Defined.

(** A segment of one space is empty after trimming, and gives a token. *)
Lemma tokenize_keeps_blank_segment :
  address_handler "Foo, ,Bar" = Ok ["FOO"; ""; "BAR"]
  /\ address_handler "Foo, ,Bar" <> Ok ["FOO"; "BAR"].
Proof. split; [reflexivity | vm_compute; discriminate]. Qed.

Lemma tokenize_discards_empty_segments_witness :
  adjacent_empty (PyStr.split PyStr.comma "Foo,,Bar, Baz,") = false
  /\ address_handler "Foo,,Bar, Baz," = Ok ["FOO"; "BAR"; "BAZ"].
Proof.
  split; [reflexivity|].
  destruct (tokenize_discards_empty_segments "Foo,,Bar, Baz," eq_refl)
    as [E _].
  rewrite E. reflexivity.
Defined.

(** An address of one space gives one token, not none. *)
Lemma tokenize_space_gives_token :
  all_chars is_delimiter " " = true
  /\ address_handler " " = Ok [""]
  /\ address_handler " " <> Ok [].
Proof. repeat split; [vm_compute; discriminate]. Qed.

Lemma tokenize_delimiters_only_witness :
  all_chars is_delimiter ". , ., " = true
  /\ adjacent_empty (PyStr.split PyStr.comma ". , ., ") = false
  /\ exists tokens,
       address_handler ". , ., " = Ok tokens
       /\ Forall (fun t => t = "") tokens
       /\ (tokens <> [] ->
           has_columns demo_townlands out_columns = true ->
           has_columns demo_counties out_columns = true ->
           no_blank_county demo_townlands = true ->
           no_blank_county demo_counties = true ->
           api_filter demo_townlands demo_counties ". , ., "
           = Ok (mkDataFrame out_columns [])).
Proof.
  split; [reflexivity|]. split; [reflexivity|].
  apply (tokenize_delimiters_only demo_townlands demo_counties ". , ., ");
    reflexivity.
Defined.

(** * Further properties of the tokenizer *)

(** ** When the tokenizer raises *)

Lemma in_firstn_succ {A : Type} (x : A) (n : nat) (l : list A) :
  In x (firstn n l) -> In x (firstn (S n) l).
Proof.
  revert n. induction l as [|a l IH]; intros n H.
  - rewrite firstn_nil in H. destruct H.
  - destruct n as [|n]; [destruct H|].
    rewrite firstn_cons in H. rewrite firstn_cons.
    destruct H as [->|H]; [now left | right; now apply IH].
Qed.

Lemma in_firstn_in {A : Type} (x : A) (n : nat) (l : list A) :
  In x (firstn n l) -> In x l.
Proof.
  intros H. rewrite <- (firstn_skipn n l). apply in_or_app. now left.
Qed.

Lemma nth_error_in_firstn {A : Type} (x : A) (n : nat) (l : list A) :
  nth_error l n = Some x -> In x (firstn (S n) l).
Proof.
  revert n. induction l as [|a l IH]; intros n H.
  - destruct n; discriminate.
  - rewrite firstn_cons. destruct n as [|n].
    + injection H as ->. now left.
    + right. now apply IH.
Qed.

(** Once an empty segment lies before the iterator, a removal takes
    that one and the empty segment the iterator is on moves before it. *)
Lemma remove_keeps_passed it l :
  In "" (firstn it l) -> nth_error l it = Some "" ->
  exists l', PyList.remove "" l = Ok l' /\ In "" (firstn (S it) l').
Proof.
  revert it. induction l as [|y l IH]; intros it Hin Hnth.
  - rewrite firstn_nil in Hin. destruct Hin.
  - destruct it as [|it]; [destruct Hin|].
    rewrite firstn_cons in Hin. cbn [nth_error] in Hnth.
    cbn [PyList.remove]. destruct (String.eqb y "") eqn:Ey.
    + exists l. split; [reflexivity|].
      apply in_firstn_succ. now apply nth_error_in_firstn.
    + destruct Hin as [E|Hin].
      { subst y. discriminate. }
      destruct (IH it Hin Hnth) as [l' [E Hl']]. rewrite E. cbn [bind].
      exists (y :: l'). split; [reflexivity|].
      rewrite firstn_cons. now right.
Qed.

Lemma remove_empty_loop_stuck fuel :
  forall it l,
    In "" (firstn it l) ->
    exists l', remove_empty_loop fuel it l = Ok l' /\ In "" l'.
Proof.
  induction fuel as [|fuel IH]; intros it l Hin.
  - exists l. split; [reflexivity|]. now apply in_firstn_in in Hin.
  - cbn [remove_empty_loop]. destruct (nth_error l it) as [word|] eqn:E.
    + destruct (String.eqb word "") eqn:Ew.
      * apply String.eqb_eq in Ew. subst word.
        destruct (remove_keeps_passed it l Hin E) as [l' [E' Hl']].
        rewrite E'. cbn [bind]. now apply IH.
      * apply IH. now apply in_firstn_succ.
    + exists l. split; [reflexivity|]. now apply in_firstn_in in Hin.
Qed.

(** With two neighbouring empty segments the loop leaves an empty
    segment in the list. *)
Lemma remove_empty_loop_leaves fuel :
  forall pre suf,
    Forall (fun w => is_empty_string w = false) pre ->
    adjacent_empty suf = true ->
    List.length suf <= fuel ->
    exists l',
      remove_empty_loop fuel (List.length pre) (pre ++ suf) = Ok l'
      /\ In "" l'.
Proof.
  induction fuel as [|fuel IH]; intros pre suf Hpre Hadj Hlen.
  - destruct suf; [discriminate | cbn in Hlen; lia].
  - destruct suf as [|w rest]; [discriminate|].
    cbn [remove_empty_loop]. rewrite nth_error_middle.
    cbn [adjacent_empty] in Hadj. cbn [List.length] in Hlen.
    fold (is_empty_string w).
    destruct (is_empty_string w) eqn:Ew.
    + apply String.eqb_eq in Ew. subst w.
      rewrite remove_after_prefix by assumption. cbn [bind].
      destruct rest as [|w' rest']; [discriminate|].
      destruct (is_empty_string w') eqn:Ew'.
      * apply String.eqb_eq in Ew'. subst w'.
        apply remove_empty_loop_stuck.
        replace (S (List.length pre)) with (List.length (pre ++ [""]))
          by (rewrite length_app; cbn; lia).
        replace (pre ++ "" :: rest') with ((pre ++ [""]) ++ rest')
          by (rewrite <- app_assoc; reflexivity).
        rewrite firstn_app, firstn_all, Nat.sub_diag, firstn_O, app_nil_r.
        apply in_or_app. right. now left.
      * cbn [andb orb] in Hadj. cbn [adjacent_empty] in Hadj.
        rewrite Ew' in Hadj. cbn [andb orb] in Hadj.
        replace (pre ++ w' :: rest') with ((pre ++ [w']) ++ rest')
          by (rewrite <- app_assoc; reflexivity).
        replace (S (List.length pre)) with (List.length (pre ++ [w']))
          by (rewrite length_app; cbn; lia).
        apply IH.
        -- apply Forall_app. split; [assumption|]. now constructor.
        -- exact Hadj.
        -- cbn [List.length] in Hlen. lia.
    + cbn [andb orb] in Hadj.
      replace (pre ++ w :: rest) with ((pre ++ [w]) ++ rest)
        by (rewrite <- app_assoc; reflexivity).
      replace (S (List.length pre)) with (List.length (pre ++ [w]))
        by (rewrite length_app; cbn; lia).
      apply IH.
      * apply Forall_app. split; [assumption|]. now constructor.
      * exact Hadj.
      * lia.
Qed.

Lemma mapM_clean_word_raises l :
  In "" l -> mapM clean_word l = Raise IndexError.
Proof.
  induction l as [|w l IH]; intros H; [destruct H|].
  cbn [mapM]. destruct w as [|c w].
  - reflexivity.
  - destruct H as [H|H]; [discriminate|].
    cbn [clean_word bind]. rewrite (IH H). reflexivity.
Qed.

Lemma address_handler_adjacent s :
  adjacent_empty (PyStr.split PyStr.comma s) = true ->
  address_handler s = Raise IndexError.
Proof.
  intros H. unfold address_handler, remove_empty.
  destruct (remove_empty_loop_leaves
              (List.length (PyStr.split PyStr.comma s)) []
              (PyStr.split PyStr.comma s) (Forall_nil _) H (le_n _))
    as [l' [E Hl']].
  cbn [List.length app] in E. rewrite E. cbn [bind].
  rewrite (mapM_clean_word_raises _ Hl'). reflexivity.
Qed.

Lemma address_handler_ok_inv s tokens :
  address_handler s = Ok tokens ->
  adjacent_empty (PyStr.split PyStr.comma s) = false
  /\ tokens = tokens_of_segments (PyStr.split PyStr.comma s).
Proof.
  intros H.
  destruct (adjacent_empty (PyStr.split PyStr.comma s)) eqn:E.
  - rewrite (address_handler_adjacent s E) in H. discriminate.
  - rewrite (address_handler_segments s E) in H. injection H as <-.
    now split.
Qed.

(** X1.  The tokenizer has two outcomes.  When no two neighbouring
    comma-separated segments are both empty it returns the tokens of the
    segments that are not empty; when two are, an empty segment is left
    in the list and [word[0]] raises [IndexError].  [list.remove] never
    raises [ValueError]. *)
Theorem address_handler_outcome (s : string) :
  (adjacent_empty (PyStr.split PyStr.comma s) = false
   /\ address_handler s = Ok (tokens_of_segments (PyStr.split PyStr.comma s)))
  \/ (adjacent_empty (PyStr.split PyStr.comma s) = true
      /\ address_handler s = Raise IndexError).
Proof.
  destruct (adjacent_empty (PyStr.split PyStr.comma s)) eqn:E.
  - right. split; [reflexivity|]. now apply address_handler_adjacent.
  - left. split; [reflexivity|]. now apply address_handler_segments.
Qed.

(** ** What a token is made of *)

Lemma all_chars_impl (p q : ascii -> bool) s :
  (forall c, p c = true -> q c = true) ->
  all_chars p s = true -> all_chars q s = true.
Proof.
  intros Hpq. induction s as [|c s IH]; intros H; [reflexivity|].
  cbn [all_chars] in *. apply andb_prop in H. destruct H as [Hc Hs].
  now rewrite (Hpq _ Hc), IH.
Qed.

Lemma split_no_sep sep s :
  Forall (fun w => all_chars (fun c => negb (Ascii.eqb c sep)) w = true)
         (PyStr.split sep s).
Proof.
  induction s as [|c s IH]; [repeat constructor|].
  cbn [PyStr.split]. destruct (Ascii.eqb c sep) eqn:Ec.
  - constructor; [reflexivity | exact IH].
  - destruct (PyStr.split sep s) as [|w ws].
    + repeat constructor. cbn. now rewrite Ec.
    + inversion IH as [|? ? Hw Hws]; subst. constructor; [|exact Hws].
      cbn [all_chars]. now rewrite Ec, Hw.
Qed.

Lemma remove_char_all p d w :
  all_chars p w = true ->
  all_chars (fun c => p c && negb (Ascii.eqb c d)) (PyStr.remove_char d w)
  = true.
Proof.
  induction w as [|c w IH]; intros H; [reflexivity|].
  cbn [all_chars] in H. apply andb_prop in H. destruct H as [Hc Hw].
  cbn [PyStr.remove_char]. destruct (Ascii.eqb c d) eqn:Ed.
  - now apply IH.
  - cbn [all_chars]. now rewrite Hc, Ed, IH.
Qed.

Lemma clean_all p w :
  all_chars p w = true ->
  all_chars (fun c => p c && negb (Ascii.eqb c PyStr.dot)) (clean w) = true.
Proof.
  destruct w as [|c w]; [reflexivity|]. intros H. unfold clean.
  destruct (Ascii.eqb c PyStr.space).
  - apply remove_char_all. cbn [all_chars] in H.
    apply andb_prop in H. tauto.
  - now apply remove_char_all.
Qed.

Lemma split_ws_all p w :
  all_chars p w = true ->
  Forall (fun t => all_chars (fun c => p c && negb (PyStr.isspace c)) t = true)
         (PyStr.split_ws w).
Proof.
  induction w as [|c w IH]; intros H; [constructor|].
  cbn [all_chars] in H. apply andb_prop in H. destruct H as [Hc Hw].
  specialize (IH Hw). cbn [PyStr.split_ws].
  destruct (PyStr.isspace c) eqn:Ec; [exact IH|].
  assert (H1 : all_chars (fun c0 => p c0 && negb (PyStr.isspace c0))
                 (String c EmptyString) = true)
    by (cbn; now rewrite Hc, Ec).
  destruct w as [|c' w']; [now repeat constructor|].
  destruct (PyStr.isspace c') eqn:Ec'.
  - constructor; assumption.
  - destruct (PyStr.split_ws (String c' w')) as [|t ts].
    + now repeat constructor.
    + inversion IH as [|? ? Ht Hts]; subst. constructor; [|exact Hts].
      cbn [all_chars]. now rewrite Hc, Ec, Ht.
Qed.

Lemma contains_all c w :
  PyStr.contains c w = false ->
  all_chars (fun d => negb (Ascii.eqb d c)) w = true.
Proof.
  induction w as [|d w IH]; intros H; [reflexivity|].
  cbn [PyStr.contains] in H. apply orb_false_elim in H. destruct H as [Hd Hw].
  cbn [all_chars]. now rewrite Hd, IH.
Qed.

Lemma all_chars_and p q w :
  all_chars p w = true -> all_chars q w = true ->
  all_chars (fun c => p c && q c) w = true.
Proof.
  induction w as [|c w IH]; intros Hp Hq; [reflexivity|].
  cbn [all_chars] in *. apply andb_prop in Hp. apply andb_prop in Hq.
  destruct Hp as [Hp1 Hp2], Hq as [Hq1 Hq2]. now rewrite Hp1, Hq1, IH.
Qed.

Lemma upper_char_delimiter c :
  is_delimiter (PyStr.upper_char c) = is_delimiter c.
Proof.
  destruct c as [[] [] [] [] [] [] [] []]; reflexivity.
Qed.

Lemma upper_char_idem c :
  PyStr.upper_char (PyStr.upper_char c) = PyStr.upper_char c.
Proof.
  destruct c as [[] [] [] [] [] [] [] []]; reflexivity.
Qed.

Lemma upper_idem w : PyStr.upper (PyStr.upper w) = PyStr.upper w.
Proof.
  induction w as [|c w IH]; [reflexivity|].
  cbn [PyStr.upper]. now rewrite upper_char_idem, IH.
Qed.

Lemma upper_no_delimiter w :
  no_delimiter w = true -> no_delimiter (PyStr.upper w) = true.
Proof.
  unfold no_delimiter. induction w as [|c w IH]; intros H; [reflexivity|].
  cbn [all_chars] in H. apply andb_prop in H. destruct H as [Hc Hw].
  cbn [PyStr.upper all_chars]. now rewrite upper_char_delimiter, Hc, IH.
Qed.

Lemma isspace_space c :
  PyStr.isspace c = false -> Ascii.eqb c PyStr.space = false.
Proof.
  destruct (Ascii.eqb c PyStr.space) eqn:E; [|reflexivity].
  apply Ascii.eqb_eq in E. subst c. discriminate.
Qed.

Lemma no_delimiter_intro w :
  all_chars (fun c => negb (Ascii.eqb c PyStr.comma)
                      && negb (Ascii.eqb c PyStr.dot)
                      && negb (Ascii.eqb c PyStr.space)) w = true ->
  no_delimiter w = true.
Proof.
  apply all_chars_impl. intros c H. unfold is_delimiter.
  destruct (Ascii.eqb c PyStr.comma), (Ascii.eqb c PyStr.dot),
    (Ascii.eqb c PyStr.space); (reflexivity || discriminate).
Qed.

(** The tokens of a cleaned segment without comma or period. *)
Lemma emit_word_tokens w :
  all_chars (fun c => negb (Ascii.eqb c PyStr.comma)
                      && negb (Ascii.eqb c PyStr.dot)) w = true ->
  Forall (fun t => no_delimiter t = true /\ PyStr.upper t = t) (emit_word w).
Proof.
  intros H. unfold emit_word.
  destruct (PyStr.contains PyStr.space w) eqn:E.
  - pose proof (split_ws_all _ _ H) as Hs.
    induction Hs as [|t ts Ht Hts IH]; [constructor|].
    cbn [map]. constructor; [|exact IH]. split; [|apply upper_idem].
    apply upper_no_delimiter, no_delimiter_intro.
    revert Ht. apply all_chars_impl. intros c Hc.
    apply andb_prop in Hc. destruct Hc as [Hc1 Hc2]. rewrite Hc1.
    apply negb_true_iff in Hc2. now rewrite (isspace_space _ Hc2).
  - repeat constructor; [|apply upper_idem].
    apply upper_no_delimiter, no_delimiter_intro.
    apply all_chars_and; [exact H | now apply contains_all].
Qed.

Lemma tokens_of_segments_tokens segments :
  Forall (fun w => all_chars (fun c => negb (Ascii.eqb c PyStr.comma)) w
                   = true) segments ->
  Forall (fun t => no_delimiter t = true /\ PyStr.upper t = t)
         (tokens_of_segments segments).
Proof.
  unfold tokens_of_segments.
  induction 1 as [|w ws Hw Hws IH]; [constructor|].
  cbn [filter]. destruct (is_empty_string w); cbn [negb]; [exact IH|].
  cbn [map flat_map]. apply Forall_app. split; [|exact IH].
  apply emit_word_tokens. now apply clean_all.
Qed.

Lemma address_handler_tokens s tokens :
  address_handler s = Ok tokens ->
  Forall (fun t => no_delimiter t = true /\ PyStr.upper t = t) tokens.
Proof.
  intros H. apply address_handler_ok_inv in H. destruct H as [_ ->].
  apply tokens_of_segments_tokens, split_no_sep.
Qed.

(** X2.  No token the tokenizer returns contains a comma, a space or a
    period. *)
Theorem tokens_without_delimiters (s : string) (tokens : list string) :
  address_handler s = Ok tokens ->
  forall t, In t tokens ->
    PyStr.contains PyStr.comma t = false
    /\ PyStr.contains PyStr.space t = false
    /\ PyStr.contains PyStr.dot t = false.
Proof.
  intros H t Ht. apply address_handler_tokens in H.
  rewrite Forall_forall in H. destruct (H t Ht) as [Hd _]. clear - Hd.
  unfold no_delimiter in Hd. induction t as [|c t IH]; [repeat split|].
  cbn [all_chars] in Hd. apply andb_prop in Hd. destruct Hd as [Hc Ht].
  destruct (IH Ht) as [H1 [H2 H3]]. cbn [PyStr.contains].
  rewrite H1, H2, H3. unfold is_delimiter in Hc.
  destruct (Ascii.eqb c PyStr.comma), (Ascii.eqb c PyStr.space),
    (Ascii.eqb c PyStr.dot); try discriminate. repeat split.
Qed.


(** ** Addresses joined by a comma *)

Lemma split_cons sep s : exists w ws, PyStr.split sep s = w :: ws.
Proof.
  destruct s as [|c s]; cbn [PyStr.split]; [eauto|].
  destruct (Ascii.eqb c sep); [eauto|].
  destruct (PyStr.split sep s); eauto.
Qed.

Lemma split_join sep s1 s2 :
  PyStr.split sep (s1 ++ String sep s2)
  = PyStr.split sep s1 ++ PyStr.split sep s2.
Proof.
  induction s1 as [|c s1 IH].
  - cbn. now rewrite Ascii.eqb_refl.
  - cbn [String.append PyStr.split]. destruct (Ascii.eqb c sep).
    + now rewrite IH.
    + rewrite IH. destruct (split_cons sep s1) as [w [ws ->]]. reflexivity.
Qed.

Lemma adjacent_empty_app l1 l2 :
  adjacent_empty (l1 ++ l2) = false ->
  adjacent_empty l1 = false /\ adjacent_empty l2 = false.
Proof.
  induction l1 as [|w l1 IH]; intros H; [now split|].
  cbn [app adjacent_empty] in H. apply orb_false_elim in H.
  destruct H as [Hw H]. destruct (IH H) as [H1 H2]. split; [|exact H2].
  cbn [adjacent_empty]. rewrite H1, orb_false_r.
  destruct l1 as [|w' l1']; [apply andb_false_r|]. exact Hw.
Qed.

Lemma tokens_of_segments_app l1 l2 :
  tokens_of_segments (l1 ++ l2)
  = tokens_of_segments l1 ++ tokens_of_segments l2.
Proof.
  unfold tokens_of_segments. now rewrite filter_app, map_app, flat_map_app.
Qed.

(** X4.  When the tokenizer returns on two addresses joined by a comma,
    it returns on each of them, and the tokens of the whole are the
    tokens of the first followed by the tokens of the second. *)
Theorem tokenize_comma_join (s1 s2 : string) (tokens : list string) :
  address_handler (s1 ++ String PyStr.comma s2) = Ok tokens ->
  exists t1 t2,
    address_handler s1 = Ok t1 /\ address_handler s2 = Ok t2
    /\ tokens = t1 ++ t2.
Proof.
  intros H. apply address_handler_ok_inv in H. destruct H as [Hadj ->].
  rewrite split_join in *. apply adjacent_empty_app in Hadj.
  destruct Hadj as [H1 H2].
  exists (tokens_of_segments (PyStr.split PyStr.comma s1)),
         (tokens_of_segments (PyStr.split PyStr.comma s2)).
  repeat split.
  - now apply address_handler_segments.
  - now apply address_handler_segments.
  - apply tokens_of_segments_app.
Qed.

(** * Further properties of the matcher *)

(** ** Tables that lack a column *)

Lemma getitem_missing df label :
  has_column df label = false -> getitem df label = Raise KeyError.
Proof.
  unfold has_column, getitem.
  destruct (get_loc label (columns df)); [discriminate | reflexivity].
Qed.

Lemma getitem_ok_inv df label series :
  getitem df label = Ok series -> has_column df label = true.
Proof.
  unfold has_column, getitem.
  destruct (get_loc label (columns df)); [reflexivity | discriminate].
Qed.

Lemma getitem_list_missing df labels :
  has_columns df labels = false -> getitem_list df labels = Raise KeyError.
Proof.
  unfold getitem_list, has_columns. set (f := fun label => _).
  assert (G : forall ls, forallb (has_column df) ls = false ->
                         mapM f ls = Raise KeyError).
  { induction ls as [|l ls IH]; cbn [forallb mapM]; intros H;
      [discriminate|].
    unfold f at 1. unfold has_column at 1 in H.
    destruct (get_loc l (columns df)); [|reflexivity].
    cbn [andb] in H. cbn [bind]. now rewrite (IH H). }
  intros H. now rewrite (G _ H).
Qed.

Lemma townlands_lookup_missing TOWNLANDS_DF county name :
  has_column TOWNLANDS_DF "County" = false
  \/ has_column TOWNLANDS_DF "English_Name" = false ->
  townlands_lookup TOWNLANDS_DF county name = Raise KeyError.
Proof.
  intros H. unfold townlands_lookup.
  destruct (has_column TOWNLANDS_DF "County") eqn:E.
  - destruct H as [H|H]; [discriminate|].
    rewrite (getitem_series _ _ E), (getitem_missing _ _ H). reflexivity.
  - now rewrite (getitem_missing _ _ E).
Qed.

Lemma townlands_lookup_inv TOWNLANDS_DF county name df :
  townlands_lookup TOWNLANDS_DF county name = Ok df ->
  has_column TOWNLANDS_DF "County" = true
  /\ has_column TOWNLANDS_DF "English_Name" = true.
Proof.
  intros H.
  destruct (has_column TOWNLANDS_DF "County") eqn:E1;
    destruct (has_column TOWNLANDS_DF "English_Name") eqn:E2;
    try (now split);
    rewrite townlands_lookup_missing in H by (rewrite ?E1, ?E2; auto);
    discriminate.
Qed.

(** X5.  When the places table lacks the County or the English_Name
    column, a call on a list that is not empty raises [KeyError] in its
    first turn, before anything is popped: the caller's list is as it
    was. *)
Theorem match_missing_place_column (TOWNLANDS_DF COUNTIES_DF : DataFrame)
    (ts : list string) :
  has_column TOWNLANDS_DF "County" = false
  \/ has_column TOWNLANDS_DF "English_Name" = false ->
  ts <> [] ->
  extract_gps_coordinates TOWNLANDS_DF COUNTIES_DF ts = (ts, Raise KeyError).
Proof.
  intros H Hts. destruct ts as [|t rest]; [congruence|].
  rewrite extract_gps_coordinates_eq.
  assert (E : while_loop TOWNLANDS_DF COUNTIES_DF new (t :: rest)
              = (t :: rest, Raise KeyError)).
  { cbn [while_loop]. change (empty new) with true. cbv iota.
    now rewrite (townlands_lookup_missing _ _ _ H). }
  rewrite E. reflexivity.
Qed.

Lemma while_loop_start TOWNLANDS_DF COUNTIES_DF df df' ts :
  empty df = true -> empty df' = true -> ts <> [] ->
  while_loop TOWNLANDS_DF COUNTIES_DF df ts
  = while_loop TOWNLANDS_DF COUNTIES_DF df' ts.
Proof.
  intros H H' Hts. destruct ts as [|t rest]; [congruence|].
  cbn [while_loop]. now rewrite H, H'.
Qed.

(** The turns on tokens without place rows, up to the last token. *)
Lemma while_loop_skip TOWNLANDS_DF COUNTIES_DF pre ts df :
  has_column TOWNLANDS_DF "County" = true ->
  has_column TOWNLANDS_DF "English_Name" = true ->
  empty df = true -> ts <> [] ->
  Forall (fun p => place_rows TOWNLANDS_DF (last ts "") p = []) pre ->
  while_loop TOWNLANDS_DF COUNTIES_DF df (pre ++ ts)
  = while_loop TOWNLANDS_DF COUNTIES_DF df ts.
Proof.
  intros HT1 HT2 Hdf Hts Hpre. revert df Hdf.
  induction Hpre as [|p pre Hp Hpre IH]; intros df Hdf; [reflexivity|].
  cbn [app]. destruct (pre ++ ts) as [|x rest] eqn:E.
  { destruct pre; [cbn in E; congruence | discriminate]. }
  rewrite while_loop_step by assumption.
  assert (Hl : last (x :: rest) p = last ts "").
  { rewrite <- E. rewrite last_app_nonempty by assumption.
    destruct ts as [|y ts']; [congruence|]. apply last_default. }
  rewrite Hl, Hp. rewrite IH by (now apply empty_no_rows).
  apply while_loop_start; [now apply empty_no_rows | assumption..].
Qed.

(** X6.  When the counties table lacks one of the four output columns,
    a search that comes to the county lookup raises [KeyError]: in the
    last turn, with the last token still in the list, when the column
    missing is County; on return, with the list used up, otherwise. *)
Theorem match_fallback_missing_column (TOWNLANDS_DF COUNTIES_DF : DataFrame)
    (county : string) (pre : list string) :
  has_columns TOWNLANDS_DF out_columns = true ->
  has_columns COUNTIES_DF out_columns = false ->
  Forall (fun p => place_rows TOWNLANDS_DF county p = []) pre ->
  extract_gps_coordinates TOWNLANDS_DF COUNTIES_DF (pre ++ [county])
  = (if has_column COUNTIES_DF "County" then [] else [county],
     Raise KeyError).
Proof.
  intros HT HC Hpre. destruct (schema_columns _ HT) as [HT1 HT2].
  rewrite extract_gps_coordinates_eq.
  destruct (has_column COUNTIES_DF "County") eqn:HC1.
  - rewrite (while_loop_fallback TOWNLANDS_DF COUNTIES_DF HT1 HT2 HC1
               county pre new) by (assumption || reflexivity).
    cbn [fst snd bind]. f_equal. now apply getitem_list_missing.
  - rewrite while_loop_skip by (assumption || reflexivity || discriminate).
    cbn [while_loop]. change (empty new) with true. cbv iota.
    rewrite townlands_lookup_ok by assumption.
    cbn [List.length Nat.eqb]. unfold counties_lookup.
    rewrite (getitem_missing _ _ HC1). reflexivity.
Qed.

(** ** What a call returns *)

(** X7.  With both tables carrying the four output columns, a call on a
    list that is not empty never raises: it returns a frame whose
    columns are County, English_Name, Y, X. *)
Theorem match_returns_frame (TOWNLANDS_DF COUNTIES_DF : DataFrame)
    (ts : list string) :
  has_columns TOWNLANDS_DF out_columns = true ->
  has_columns COUNTIES_DF out_columns = true ->
  ts <> [] ->
  exists df,
    snd (extract_gps_coordinates TOWNLANDS_DF COUNTIES_DF ts) = Ok df
    /\ columns df = out_columns.
Proof.
  intros HT HC Hts.
  destruct (match_exit_states TOWNLANDS_DF COUNTIES_DF ts HT HC Hts)
    as [rs [[E _] | [E _]]]; rewrite E; eexists; split; reflexivity.
Qed.

(** X8.  Leading tokens that are the name of no place of the county
    change nothing: the call returns what it returns without them, and
    leaves the same tokens in the list. *)
Theorem match_skips_unmatched_tokens (TOWNLANDS_DF COUNTIES_DF : DataFrame)
    (pre ts : list string) :
  has_column TOWNLANDS_DF "County" = true ->
  has_column TOWNLANDS_DF "English_Name" = true ->
  ts <> [] ->
  Forall (fun p => place_rows TOWNLANDS_DF (last ts "") p = []) pre ->
  extract_gps_coordinates TOWNLANDS_DF COUNTIES_DF (pre ++ ts)
  = extract_gps_coordinates TOWNLANDS_DF COUNTIES_DF ts.
Proof.
  intros HT1 HT2 Hts Hpre.
  rewrite !extract_gps_coordinates_eq.
  now rewrite while_loop_skip by (assumption || reflexivity).
Qed.

Lemma unknown_place_rows places county name :
  unknown_county places county = true -> place_rows places county name = [].
Proof.
  unfold unknown_county, place_rows.
  induction (rows places) as [|r rs IH]; intros H; [reflexivity|].
  cbn [forallb] in H. apply andb_prop in H. destruct H as [Hr Hrs].
  cbn [filter]. apply negb_true_iff in Hr. rewrite Hr. cbn [andb].
  now apply IH.
Qed.

Lemma unknown_county_rows counties county :
  unknown_county counties county = true -> county_rows counties county = [].
Proof.
  unfold unknown_county, county_rows.
  induction (rows counties) as [|r rs IH]; intros H; [reflexivity|].
  cbn [forallb] in H. apply andb_prop in H. destruct H as [Hr Hrs].
  cbn [filter]. apply negb_true_iff in Hr. rewrite Hr. now apply IH.
Qed.

(** X9.  When the last token is the County of no row of either table,
    the call goes through every token and returns the frame without
    rows, whatever the other tokens are. *)
Theorem match_unknown_county_empty (TOWNLANDS_DF COUNTIES_DF : DataFrame)
    (ts : list string) :
  has_columns TOWNLANDS_DF out_columns = true ->
  has_columns COUNTIES_DF out_columns = true ->
  ts <> [] ->
  unknown_county TOWNLANDS_DF (last ts "") = true ->
  unknown_county COUNTIES_DF (last ts "") = true ->
  extract_gps_coordinates TOWNLANDS_DF COUNTIES_DF ts
  = ([], Ok (mkDataFrame out_columns [])).
Proof.
  intros HT HC Hts UT UC.
  destruct (exists_last Hts) as [pre [c E]]. subst ts.
  rewrite last_last in UT, UC.
  rewrite (extract_fallback TOWNLANDS_DF COUNTIES_DF c pre HT HC).
  - now rewrite (unknown_county_rows _ _ UC).
  - apply Forall_forall. intros p _. now apply unknown_place_rows.
Qed.

(** ** The County of the rows returned *)

Lemma cell_eqb_eq value c : cell_eqb value c = true -> c = Some value.
Proof.
  destruct c as [s|]; cbn; [|discriminate].
  intros H. apply String.eqb_eq in H. now subst.
Qed.

Lemma place_rows_county places county name :
  Forall (fun r => field places "County" r = Some county)
         (place_rows places county name).
Proof.
  apply Forall_forall. intros r Hr. apply filter_In in Hr.
  destruct Hr as [_ Hr]. apply andb_prop in Hr.
  now apply cell_eqb_eq.
Qed.

Lemma county_rows_county counties county :
  Forall (fun r => field counties "County" r = Some county)
         (county_rows counties county).
Proof.
  apply Forall_forall. intros r Hr. apply filter_In in Hr.
  destruct Hr as [_ Hr]. now apply cell_eqb_eq.
Qed.

(** The frame the loop ends with holds rows of one table whose County
    is the last token. *)
Lemma while_loop_county TOWNLANDS_DF COUNTIES_DF ts :
  has_column TOWNLANDS_DF "County" = true ->
  has_column TOWNLANDS_DF "English_Name" = true ->
  forall df0 l df,
    empty df0 = true -> ts <> [] ->
    while_loop TOWNLANDS_DF COUNTIES_DF df0 ts = (l, Ok df) ->
    exists table rs,
      df = mkDataFrame (columns table) rs
      /\ Forall (fun r => field table "County" r = Some (last ts "")) rs.
Proof.
  intros HT1 HT2.
  induction ts as [|t rest IH]; intros df0 l df Hdf0 Hts H; [congruence|].
  destruct rest as [|x rest'].
  - cbn [while_loop] in H. rewrite Hdf0 in H.
    rewrite townlands_lookup_ok in H by assumption.
    cbn [List.length Nat.eqb] in H.
    destruct (counties_lookup COUNTIES_DF t) as [cm|e] eqn:E;
      [|discriminate].
    cbn [while_loop] in H. injection H as _ <-.
    unfold counties_lookup in E.
    destruct (getitem COUNTIES_DF "County") as [c|e] eqn:Ec;
      [|discriminate].
    pose proof (getitem_ok_inv _ _ _ Ec) as HC1.
    rewrite <- Ec in E. fold (counties_lookup COUNTIES_DF t) in E.
    rewrite counties_lookup_ok in E by assumption. injection E as <-.
    exists COUNTIES_DF, (county_rows COUNTIES_DF t).
    split; [reflexivity | apply county_rows_county].
  - rewrite while_loop_step in H by assumption.
    change (last (t :: x :: rest') "") with (last (x :: rest') "").
    rewrite (last_default rest' x t "") in H.
    destruct (place_rows TOWNLANDS_DF (last (x :: rest') "") t)
      as [|r rs] eqn:E.
    + apply (IH _ _ _ (empty_no_rows TOWNLANDS_DF HT1)) in H;
        [exact H | discriminate].
    + injection H as _ <-.
      exists TOWNLANDS_DF, (r :: rs). split; [reflexivity|].
      rewrite <- E. apply place_rows_county.
Qed.

Lemma extract_ok_inv TOWNLANDS_DF COUNTIES_DF ts df :
  snd (extract_gps_coordinates TOWNLANDS_DF COUNTIES_DF ts) = Ok df ->
  ts <> []
  /\ exists table rs,
       df = records_frame table rs
       /\ Forall (fun r => field table "County" r = Some (last ts "")) rs.
Proof.
  rewrite extract_gps_coordinates_eq. cbn [snd].
  destruct ts as [|t rest]; [discriminate|]. intros H.
  split; [discriminate|].
  destruct (while_loop TOWNLANDS_DF COUNTIES_DF new (t :: rest))
    as [l [df1|e]] eqn:E; cbn [snd bind] in H; [|discriminate].
  assert (HT : has_column TOWNLANDS_DF "County" = true
               /\ has_column TOWNLANDS_DF "English_Name" = true).
  { cbn [while_loop] in E. change (empty new) with true in E. cbv iota in E.
    destruct (townlands_lookup TOWNLANDS_DF (last (t :: rest) t) t)
      as [tm|e] eqn:Et; [|discriminate].
    now apply townlands_lookup_inv in Et. }
  destruct HT as [HT1 HT2].
  destruct (while_loop_county TOWNLANDS_DF COUNTIES_DF (t :: rest) HT1 HT2
              new l df1 eq_refl ltac:(discriminate) E)
    as [table [rs [-> Hrs]]].
  apply getitem_list_inv in H. destruct H as [_ ->].
  exists table, rs. split; [reflexivity | exact Hrs].
Qed.

(** X10.  In every frame a call returns, the County of every record is
    the last token of the list the call was given. *)
Theorem match_rows_county (TOWNLANDS_DF COUNTIES_DF : DataFrame)
    (ts : list string) (df : DataFrame) :
  snd (extract_gps_coordinates TOWNLANDS_DF COUNTIES_DF ts) = Ok df ->
  forall rec, In rec (rows df) -> field df "County" rec = Some (last ts "").
Proof.
  intros H rec Hrec. apply extract_ok_inv in H.
  destruct H as [_ [table [rs [-> Hrs]]]].
  cbn [rows records_frame] in Hrec. apply in_map_iff in Hrec.
  destruct Hrec as [r [<- Hr]]. rewrite Forall_forall in Hrs.
  rewrite <- (Hrs r Hr). reflexivity.
Qed.

(** ** The tokenizer followed by the matcher *)

(** X11.  With both tables carrying the four output columns, [api_filter]
    has three outcomes up to [data]: [IndexError] from the tokenizer
    when two neighbouring segments are both empty; [KeyError] from the
    matcher when the tokenizer returns no token; a frame with the four
    output columns otherwise. *)
Theorem api_filter_outcome (TOWNLANDS_DF COUNTIES_DF : DataFrame)
    (address : string) :
  has_columns TOWNLANDS_DF out_columns = true ->
  has_columns COUNTIES_DF out_columns = true ->
  let segments := PyStr.split PyStr.comma address in
  (adjacent_empty segments = true
   /\ api_filter TOWNLANDS_DF COUNTIES_DF address = Raise IndexError)
  \/ (adjacent_empty segments = false
      /\ tokens_of_segments segments = []
      /\ api_filter TOWNLANDS_DF COUNTIES_DF address = Raise KeyError)
  \/ (adjacent_empty segments = false
      /\ tokens_of_segments segments <> []
      /\ exists df,
           api_filter TOWNLANDS_DF COUNTIES_DF address = Ok df
           /\ columns df = out_columns).
Proof.
  intros HT HC segments. unfold api_filter. subst segments.
  destruct (adjacent_empty (PyStr.split PyStr.comma address)) eqn:E.
  - left. split; [reflexivity|].
    now rewrite (address_handler_adjacent _ E).
  - right. rewrite (address_handler_segments _ E). cbn [bind].
    destruct (tokens_of_segments (PyStr.split PyStr.comma address))
      as [|t ts] eqn:Et.
    + left. repeat split.
    + right. split; [reflexivity|]. split; [discriminate|].
      destruct (match_exit_states TOWNLANDS_DF COUNTIES_DF (t :: ts) HT HC)
        as [rs [[E' _] | [E' _]]]; try discriminate;
        rewrite E'; eexists; split; reflexivity.
Qed.



(** ** The records given to [jsonify] *)

(** X13.  The frame a call returns gives [to_dict] one dictionary per
    row, and the keys of each are County, English_Name, Y, X. *)
Theorem match_records_keys (TOWNLANDS_DF COUNTIES_DF : DataFrame)
    (ts : list string) (df : DataFrame) :
  snd (extract_gps_coordinates TOWNLANDS_DF COUNTIES_DF ts) = Ok df ->
  List.length (to_dict_records df) = List.length (rows df)
  /\ forall d, In d (to_dict_records df) -> map fst d = out_columns.
Proof.
  intros H. split; [apply length_map|].
  apply extract_ok_inv in H. destruct H as [_ [table [rs [-> _]]]].
  intros d Hd. unfold to_dict_records in Hd. apply in_map_iff in Hd.
  destruct Hd as [row [<- Hrow]].
  cbn [rows records_frame] in Hrow. apply in_map_iff in Hrow.
  destruct Hrow as [r [<- _]]. reflexivity.
Qed.

(** ** A place match and the counties table *)

(** X14.  A search that stops on a place match never reads the counties
    table: the call returns the same, and leaves the same list, with any
    other counties table in its place, also one without columns. *)
Theorem match_place_level_ignores_counties
    (TOWNLANDS_DF COUNTIES_DF COUNTIES_DF' : DataFrame)
    (county : string) (pre : list string) (t : string) (post : list string) :
  has_column TOWNLANDS_DF "County" = true ->
  has_column TOWNLANDS_DF "English_Name" = true ->
  Forall (fun p => place_rows TOWNLANDS_DF county p = []) pre ->
  place_rows TOWNLANDS_DF county t <> [] ->
  post <> [] -> last post "" = county ->
  extract_gps_coordinates TOWNLANDS_DF COUNTIES_DF (pre ++ t :: post)
  = extract_gps_coordinates TOWNLANDS_DF COUNTIES_DF' (pre ++ t :: post).
Proof.
  intros HT1 HT2 Hpre Ht Hpost Hlast.
  rewrite !extract_gps_coordinates_eq.
  rewrite (while_loop_found TOWNLANDS_DF COUNTIES_DF HT1 HT2 county pre t
             post new) by (assumption || reflexivity).
  rewrite (while_loop_found TOWNLANDS_DF COUNTIES_DF' HT1 HT2 county pre t
             post new) by (assumption || reflexivity).
  reflexivity.
Qed.

(** ** An address of the form "name, county" *)








(** ** The further properties at concrete inputs *)

Lemma tokens_without_delimiters_witness :
  address_handler "Main St., Co. Carlow" = Ok ["MAIN"; "ST"; "CO"; "CARLOW"]
  /\ forall t, In t ["MAIN"; "ST"; "CO"; "CARLOW"] ->
       PyStr.contains PyStr.comma t = false
       /\ PyStr.contains PyStr.space t = false
       /\ PyStr.contains PyStr.dot t = false.
Proof.
  split; [reflexivity|].
  apply (tokens_without_delimiters "Main St., Co. Carlow"). reflexivity.
Defined.


Lemma tokenize_comma_join_witness :
  address_handler "Main St,, Co. Carlow" = Ok ["MAIN"; "ST"; "CO"; "CARLOW"]
  /\ exists t1 t2,
       address_handler "Main St," = Ok t1
       /\ address_handler " Co. Carlow" = Ok t2
       /\ ["MAIN"; "ST"; "CO"; "CARLOW"] = t1 ++ t2.
Proof.
  split; [reflexivity|].
  apply (tokenize_comma_join "Main St," " Co. Carlow"). reflexivity.
Defined.

Lemma match_missing_place_column_witness :
  (has_column new "County" = false \/ has_column new "English_Name" = false)
  /\ extract_gps_coordinates new demo_counties ["JOHNSTOWN"; "CARLOW"]
     = (["JOHNSTOWN"; "CARLOW"], Raise KeyError).
Proof.
  split; [left; reflexivity|].
  apply (match_missing_place_column new demo_counties
           ["JOHNSTOWN"; "CARLOW"]);
    [left; reflexivity | discriminate].
Defined.

Lemma match_fallback_missing_column_witness :
  has_columns demo_townlands out_columns = true
  /\ has_columns narrow_counties out_columns = false
  /\ extract_gps_coordinates demo_townlands narrow_counties ["CO"; "CARLOW"]
     = (if has_column narrow_counties "County" then [] else ["CARLOW"],
        Raise KeyError).
Proof.
  split; [reflexivity|]. split; [reflexivity|].
  apply (match_fallback_missing_column demo_townlands narrow_counties
           "CARLOW" ["CO"]);
    [reflexivity | reflexivity | repeat constructor].
Defined.

Lemma match_returns_frame_witness :
  exists df,
    snd (extract_gps_coordinates demo_townlands demo_counties
           ["NOWHERE"; "CARLOW"]) = Ok df
    /\ columns df = out_columns.
Proof.
  apply (match_returns_frame demo_townlands demo_counties
           ["NOWHERE"; "CARLOW"]);
    [reflexivity | reflexivity | discriminate].
Defined.

Lemma match_skips_unmatched_tokens_witness :
  extract_gps_coordinates demo_townlands demo_counties
    (["MAIN"; "ST"] ++ ["JOHNSTOWN"; "CO"; "CARLOW"])
  = extract_gps_coordinates demo_townlands demo_counties
      ["JOHNSTOWN"; "CO"; "CARLOW"].
Proof.
  apply (match_skips_unmatched_tokens demo_townlands demo_counties
           ["MAIN"; "ST"] ["JOHNSTOWN"; "CO"; "CARLOW"]);
    [reflexivity | reflexivity | discriminate | repeat constructor].
Defined.

Lemma match_unknown_county_empty_witness :
  unknown_county demo_townlands "ATLANTIS" = true
  /\ unknown_county demo_counties "ATLANTIS" = true
  /\ extract_gps_coordinates demo_townlands demo_counties
       ["JOHNSTOWN"; "CARLOW"; "ATLANTIS"]
     = ([], Ok (mkDataFrame out_columns [])).
Proof.
  split; [reflexivity|]. split; [reflexivity|].
  apply (match_unknown_county_empty demo_townlands demo_counties
           ["JOHNSTOWN"; "CARLOW"; "ATLANTIS"]);
    [reflexivity | reflexivity | discriminate | reflexivity | reflexivity].
Defined.

Lemma match_rows_county_witness :
  let df := mkDataFrame out_columns
              [ [Some "CARLOW"; Some "JOHNSTOWN"; Some "52.82089152866102";
                 Some "-6.868629101436554"];
                [Some "CARLOW"; Some "JOHNSTOWN"; Some "52.7100";
                 Some "-6.7012"] ] in
  snd (extract_gps_coordinates demo_townlands demo_counties
         ["JOHNSTOWN"; "CARLOW"]) = Ok df
  /\ forall rec, In rec (rows df) ->
       field df "County" rec = Some (last ["JOHNSTOWN"; "CARLOW"] "").
Proof.
  split; [reflexivity|].
  apply (match_rows_county demo_townlands demo_counties
           ["JOHNSTOWN"; "CARLOW"]).
  reflexivity.
Defined.

Lemma api_filter_outcome_witness :
  let segments := PyStr.split PyStr.comma "Johnstown, Co Carlow" in
  (adjacent_empty segments = true
   /\ api_filter demo_townlands demo_counties "Johnstown, Co Carlow"
      = Raise IndexError)
  \/ (adjacent_empty segments = false
      /\ tokens_of_segments segments = []
      /\ api_filter demo_townlands demo_counties "Johnstown, Co Carlow"
         = Raise KeyError)
  \/ (adjacent_empty segments = false
      /\ tokens_of_segments segments <> []
      /\ exists df,
           api_filter demo_townlands demo_counties "Johnstown, Co Carlow"
           = Ok df
           /\ columns df = out_columns).
Proof.
  apply (api_filter_outcome demo_townlands demo_counties
           "Johnstown, Co Carlow"); reflexivity.
Defined.


Lemma match_records_keys_witness :
  let df := mkDataFrame out_columns
              [ [Some "CARLOW"; Some "CARLOW"; Some "52.6900";
                 Some "-6.8100"] ] in
  snd (extract_gps_coordinates demo_townlands demo_counties ["CARLOW"])
  = Ok df
  /\ List.length (to_dict_records df) = List.length (rows df)
  /\ forall d, In d (to_dict_records df) -> map fst d = out_columns.
Proof.
  split; [reflexivity|].
  apply (match_records_keys demo_townlands demo_counties ["CARLOW"]).
  reflexivity.
Defined.

Lemma match_place_level_ignores_counties_witness :
  place_rows demo_townlands "CARLOW" "JOHNSTOWN" <> []
  /\ extract_gps_coordinates demo_townlands demo_counties
       (["CO"] ++ "JOHNSTOWN" :: ["CARLOW"])
     = extract_gps_coordinates demo_townlands new
         (["CO"] ++ "JOHNSTOWN" :: ["CARLOW"]).
Proof.
  assert (H : place_rows demo_townlands "CARLOW" "JOHNSTOWN" <> [])
    by (vm_compute; discriminate).
  split; [exact H|].
  apply (match_place_level_ignores_counties demo_townlands demo_counties new
           "CARLOW" ["CO"] "JOHNSTOWN" ["CARLOW"]);
    [reflexivity | reflexivity | repeat constructor | exact H
     | discriminate | reflexivity].
Defined.

